(** * Hurriyet network packet analyzer: the [App] component

    A shallow embedding of [src/App.tsx]: the state held in the component's
    [useState] hooks, the two event listeners registered in [useEffect], the
    [startCapture] / [stopCapture] handlers, the [filteredPackets] view and
    the cells of a packet table row.

    Modelling conventions.
    - A JavaScript string is a [string]: a sequence of UTF-16 code units.
      A literal between double quotes denotes the code units of the text
      written.
    - [String.prototype.toLowerCase] follows the Unicode default case
      conversion: the simple lowercase mappings, the one-to-two mapping of
      U+0130 and the context rule for the final sigma.
    - A JavaScript number that holds an integer is a [Z]; the result of an
      arithmetic operation is a [JS.Number], which rounds to binary64 and
      has [NaN] and the infinities.
    - An optional field ([source_port?: number]) is an [option].
    - A promise returned by [invoke] settles to an [InvokeResult]; the code
      after [await] runs on the state current at that moment.
    - [console.error] appends to a list of logged lines returned next to the
      new state. *)

From Stdlib Require Import List Bool ZArith NArith Lia.
From Stdlib Require Import Decimal DecimalN DecimalPos.
From Stdlib.Strings Require Import Byte.
Import ListNotations.

Set Implicit Arguments.

(** ** Strings of UTF-16 code units *)

Definition codeUnit : Type := N.

Bind Scope N_scope with codeUnit.

Inductive string : Type :=
| EmptyString
| String (c : codeUnit) (s : string).

Fixpoint append (a b : string) : string :=
  match a with
  | EmptyString => b
  | String c a' => String c (append a' b)
  end.

Fixpoint eqb (a b : string) : bool :=
  match a, b with
  | EmptyString, EmptyString => true
  | String x a', String y b' => (x =? y)%N && eqb a' b'
  | _, _ => false
  end.

Fixpoint ofUnits (l : list codeUnit) : string :=
  match l with
  | [] => EmptyString
  | c :: l' => String c (ofUnits l')
  end.

Fixpoint units (s : string) : list codeUnit :=
  match s with
  | EmptyString => []
  | String c s' => c :: units s'
  end.

Definition isHighSurrogate (c : N) : bool :=
  (55296 <=? c)%N && (c <=? 56319)%N.

Definition isLowSurrogate (c : N) : bool :=
  (56320 <=? c)%N && (c <=? 57343)%N.

(** The code points a string encodes: a high surrogate followed by a low
    one is one code point, any other code unit stands for itself. *)
Fixpoint codePoints (s : string) : list N :=
  match s with
  | EmptyString => []
  | String hi rest =>
      match rest with
      | String lo rest' =>
          if isHighSurrogate hi && isLowSurrogate lo
          then (65536 + (hi - 55296) * 1024 + (lo - 56320))%N
               :: codePoints rest'
          else hi :: codePoints rest
      | EmptyString => [hi]
      end
  end.

(** The code units of one code point. *)
Definition unitsOfPoint (cp : N) : list codeUnit :=
  if (cp <? 65536)%N then [cp]
  else [(55296 + (cp - 65536) / 1024)%N; (56320 + (cp - 65536) mod 1024)%N].

Definition ofPoints (cps : list N) : string :=
  ofUnits (flat_map unitsOfPoint cps).

(** Reading and printing of literals: the text of a literal is UTF-8. *)
Fixpoint decodeUtf8 (fuel : nat) (bs : list N) : option (list N) :=
  match fuel with
  | O => match bs with [] => Some [] | _ => None end
  | S fuel' =>
      match bs with
      | [] => Some []
      | b0 :: r0 =>
          if (b0 <? 128)%N then option_map (cons b0) (decodeUtf8 fuel' r0)
          else if (b0 <? 192)%N then None
          else if (b0 <? 224)%N then
            match r0 with
            | b1 :: r1 =>
                option_map (cons ((b0 - 192) * 64 + (b1 - 128))%N)
                           (decodeUtf8 fuel' r1)
            | _ => None
            end
          else if (b0 <? 240)%N then
            match r0 with
            | b1 :: b2 :: r2 =>
                option_map
                  (cons ((b0 - 224) * 4096 + (b1 - 128) * 64 + (b2 - 128))%N)
                  (decodeUtf8 fuel' r2)
            | _ => None
            end
          else
            match r0 with
            | b1 :: b2 :: b3 :: r3 =>
                option_map
                  (cons ((b0 - 240) * 262144 + (b1 - 128) * 4096
                         + (b2 - 128) * 64 + (b3 - 128))%N)
                  (decodeUtf8 fuel' r3)
            | _ => None
            end
      end
  end.

Definition encodeUtf8 (cp : N) : list N :=
  if (cp <? 128)%N then [cp]
  else if (cp <? 2048)%N then [(192 + cp / 64)%N; (128 + cp mod 64)%N]
  else if (cp <? 65536)%N
  then [(224 + cp / 4096)%N; (128 + (cp / 64) mod 64)%N; (128 + cp mod 64)%N]
  else [(240 + cp / 262144)%N; (128 + (cp / 4096) mod 64)%N;
        (128 + (cp / 64) mod 64)%N; (128 + cp mod 64)%N].

Definition parseLiteral (bs : list Byte.byte) : option string :=
  option_map ofPoints (decodeUtf8 (List.length bs) (map Byte.to_N bs)).

Fixpoint allSome (A : Type) (l : list (option A)) : option (list A) :=
  match l with
  | [] => Some []
  | Some x :: l' => option_map (cons x) (allSome l')
  | None :: _ => None
  end.

Definition printLiteral (s : string) : option (list Byte.byte) :=
  let cps := codePoints s in
  if existsb (fun cp => isHighSurrogate cp || isLowSurrogate cp) cps
  then None
  else allSome (map Byte.of_N (flat_map encodeUtf8 cps)).

Declare Scope jsstring_scope.
Delimit Scope jsstring_scope with string.
Bind Scope jsstring_scope with string.
String Notation string parseLiteral printLiteral : jsstring_scope.
Notation "x ++ y" := (append x y)
  (right associativity, at level 60) : jsstring_scope.
Notation "x =? y" := (eqb x y) (at level 70) : jsstring_scope.

#[local] Open Scope jsstring_scope.

(** ** The Unicode data behind lower-casing *)

Module Unicode.

(** The tables below are those of the Unicode Character Database,
    version 14.0. *)

(** The simple lowercase mappings of UnicodeData.txt, as arithmetic
    progressions: [(first, last, step, image of first)]. *)
Definition lowercaseRanges : list (N * N * N * N) :=
  [(65, 90, 1, 97); (192, 214, 1, 224); (216, 222, 1, 248);
   (256, 302, 2, 257); (306, 310, 2, 307); (313, 327, 2, 314);
   (330, 374, 2, 331); (376, 376, 1, 255); (377, 381, 2, 378);
   (385, 385, 1, 595); (386, 388, 2, 387); (390, 390, 1, 596);
   (391, 391, 1, 392); (393, 394, 1, 598); (395, 395, 1, 396);
   (398, 398, 1, 477); (399, 399, 1, 601); (400, 400, 1, 603);
   (401, 401, 1, 402); (403, 403, 1, 608); (404, 404, 1, 611);
   (406, 406, 1, 617); (407, 407, 1, 616); (408, 408, 1, 409);
   (412, 412, 1, 623); (413, 413, 1, 626); (415, 415, 1, 629);
   (416, 420, 2, 417); (422, 422, 1, 640); (423, 423, 1, 424);
   (425, 425, 1, 643); (428, 428, 1, 429); (430, 430, 1, 648);
   (431, 431, 1, 432); (433, 434, 1, 650); (435, 437, 2, 436);
   (439, 439, 1, 658); (440, 440, 1, 441); (444, 444, 1, 445);
   (452, 452, 1, 454); (453, 453, 1, 454); (455, 455, 1, 457);
   (456, 456, 1, 457); (458, 458, 1, 460); (459, 475, 2, 460);
   (478, 494, 2, 479); (497, 497, 1, 499); (498, 500, 2, 499);
   (502, 502, 1, 405); (503, 503, 1, 447); (504, 542, 2, 505);
   (544, 544, 1, 414); (546, 562, 2, 547); (570, 570, 1, 11365);
   (571, 571, 1, 572); (573, 573, 1, 410); (574, 574, 1, 11366);
   (577, 577, 1, 578); (579, 579, 1, 384); (580, 580, 1, 649);
   (581, 581, 1, 652); (582, 590, 2, 583); (880, 882, 2, 881);
   (886, 886, 1, 887); (895, 895, 1, 1011); (902, 902, 1, 940);
   (904, 906, 1, 941); (908, 908, 1, 972); (910, 911, 1, 973);
   (913, 929, 1, 945); (931, 939, 1, 963); (975, 975, 1, 983);
   (984, 1006, 2, 985); (1012, 1012, 1, 952); (1015, 1015, 1, 1016);
   (1017, 1017, 1, 1010); (1018, 1018, 1, 1019); (1021, 1023, 1, 891);
   (1024, 1039, 1, 1104); (1040, 1071, 1, 1072); (1120, 1152, 2, 1121);
   (1162, 1214, 2, 1163); (1216, 1216, 1, 1231); (1217, 1229, 2, 1218);
   (1232, 1326, 2, 1233); (1329, 1366, 1, 1377); (4256, 4293, 1, 11520);
   (4295, 4295, 1, 11559); (4301, 4301, 1, 11565); (5024, 5103, 1, 43888);
   (5104, 5109, 1, 5112); (7312, 7354, 1, 4304); (7357, 7359, 1, 4349);
   (7680, 7828, 2, 7681); (7838, 7838, 1, 223); (7840, 7934, 2, 7841);
   (7944, 7951, 1, 7936); (7960, 7965, 1, 7952); (7976, 7983, 1, 7968);
   (7992, 7999, 1, 7984); (8008, 8013, 1, 8000); (8025, 8031, 2, 8017);
   (8040, 8047, 1, 8032); (8072, 8079, 1, 8064); (8088, 8095, 1, 8080);
   (8104, 8111, 1, 8096); (8120, 8121, 1, 8112); (8122, 8123, 1, 8048);
   (8124, 8124, 1, 8115); (8136, 8139, 1, 8050); (8140, 8140, 1, 8131);
   (8152, 8153, 1, 8144); (8154, 8155, 1, 8054); (8168, 8169, 1, 8160);
   (8170, 8171, 1, 8058); (8172, 8172, 1, 8165); (8184, 8185, 1, 8056);
   (8186, 8187, 1, 8060); (8188, 8188, 1, 8179); (8486, 8486, 1, 969);
   (8490, 8490, 1, 107); (8491, 8491, 1, 229); (8498, 8498, 1, 8526);
   (8544, 8559, 1, 8560); (8579, 8579, 1, 8580); (9398, 9423, 1, 9424);
   (11264, 11311, 1, 11312); (11360, 11360, 1, 11361); (11362, 11362, 1, 619);
   (11363, 11363, 1, 7549); (11364, 11364, 1, 637); (11367, 11371, 2, 11368);
   (11373, 11373, 1, 593); (11374, 11374, 1, 625); (11375, 11375, 1, 592);
   (11376, 11376, 1, 594); (11378, 11378, 1, 11379); (11381, 11381, 1, 11382);
   (11390, 11391, 1, 575); (11392, 11490, 2, 11393); (11499, 11501, 2, 11500);
   (11506, 11506, 1, 11507); (42560, 42604, 2, 42561);
   (42624, 42650, 2, 42625); (42786, 42798, 2, 42787);
   (42802, 42862, 2, 42803); (42873, 42875, 2, 42874);
   (42877, 42877, 1, 7545); (42878, 42886, 2, 42879);
   (42891, 42891, 1, 42892); (42893, 42893, 1, 613); (42896, 42898, 2, 42897);
   (42902, 42920, 2, 42903); (42922, 42922, 1, 614); (42923, 42923, 1, 604);
   (42924, 42924, 1, 609); (42925, 42925, 1, 620); (42926, 42926, 1, 618);
   (42928, 42928, 1, 670); (42929, 42929, 1, 647); (42930, 42930, 1, 669);
   (42931, 42931, 1, 43859); (42932, 42946, 2, 42933);
   (42948, 42948, 1, 42900); (42949, 42949, 1, 642); (42950, 42950, 1, 7566);
   (42951, 42953, 2, 42952); (42960, 42960, 1, 42961);
   (42966, 42968, 2, 42967); (42997, 42997, 1, 42998);
   (65313, 65338, 1, 65345); (66560, 66599, 1, 66600);
   (66736, 66771, 1, 66776); (66928, 66938, 1, 66967);
   (66940, 66954, 1, 66979); (66956, 66962, 1, 66995);
   (66964, 66965, 1, 67003); (68736, 68786, 1, 68800);
   (71840, 71871, 1, 71872); (93760, 93791, 1, 93792);
   (125184, 125217, 1, 125218)]%N.

(** The code points that are Cased and not Case_Ignorable.  The scan for
    the final sigma tests Case_Ignorable first, so a character with both
    properties never counts as a cased letter. *)
Definition casedRanges : list (N * N) :=
  [(65, 90); (97, 122); (170, 170); (181, 181); (186, 186); (192, 214);
   (216, 246); (248, 442); (444, 447); (452, 659); (661, 687); (880, 883);
   (886, 887); (891, 893); (895, 895); (902, 902); (904, 906); (908, 908);
   (910, 929); (931, 1013); (1015, 1153); (1162, 1327); (1329, 1366);
   (1376, 1416); (4256, 4293); (4295, 4295); (4301, 4301); (4304, 4346);
   (4349, 4351); (5024, 5109); (5112, 5117); (7296, 7304); (7312, 7354);
   (7357, 7359); (7424, 7467); (7531, 7543); (7545, 7578); (7680, 7957);
   (7960, 7965); (7968, 8005); (8008, 8013); (8016, 8023); (8025, 8025);
   (8027, 8027); (8029, 8029); (8031, 8061); (8064, 8116); (8118, 8124);
   (8126, 8126); (8130, 8132); (8134, 8140); (8144, 8147); (8150, 8155);
   (8160, 8172); (8178, 8180); (8182, 8188); (8450, 8450); (8455, 8455);
   (8458, 8467); (8469, 8469); (8473, 8477); (8484, 8484); (8486, 8486);
   (8488, 8488); (8490, 8493); (8495, 8500); (8505, 8505); (8508, 8511);
   (8517, 8521); (8526, 8526); (8544, 8575); (8579, 8580); (9398, 9449);
   (11264, 11387); (11390, 11492); (11499, 11502); (11506, 11507);
   (11520, 11557); (11559, 11559); (11565, 11565); (42560, 42605);
   (42624, 42651); (42786, 42863); (42865, 42887); (42891, 42894);
   (42896, 42954); (42960, 42961); (42963, 42963); (42965, 42969);
   (42997, 42998); (43002, 43002); (43824, 43866); (43872, 43880);
   (43888, 43967); (64256, 64262); (64275, 64279); (65313, 65338);
   (65345, 65370); (66560, 66639); (66736, 66771); (66776, 66811);
   (66928, 66938); (66940, 66954); (66956, 66962); (66964, 66965);
   (66967, 66977); (66979, 66993); (66995, 67001); (67003, 67004);
   (68736, 68786); (68800, 68850); (71840, 71903); (93760, 93823);
   (119808, 119892); (119894, 119964); (119966, 119967); (119970, 119970);
   (119973, 119974); (119977, 119980); (119982, 119993); (119995, 119995);
   (119997, 120003); (120005, 120069); (120071, 120074); (120077, 120084);
   (120086, 120092); (120094, 120121); (120123, 120126); (120128, 120132);
   (120134, 120134); (120138, 120144); (120146, 120485); (120488, 120512);
   (120514, 120538); (120540, 120570); (120572, 120596); (120598, 120628);
   (120630, 120654); (120656, 120686); (120688, 120712); (120714, 120744);
   (120746, 120770); (120772, 120779); (122624, 122633); (122635, 122654);
   (125184, 125251); (127280, 127305); (127312, 127337); (127344, 127369)]%N.

(** The code points that are Case_Ignorable. *)
Definition caseIgnorableRanges : list (N * N) :=
  [(39, 39); (46, 46); (58, 58); (94, 94); (96, 96); (168, 168); (173, 173);
   (175, 175); (180, 180); (183, 184); (688, 879); (884, 885); (890, 890);
   (900, 901); (903, 903); (1155, 1161); (1369, 1369); (1375, 1375);
   (1425, 1469); (1471, 1471); (1473, 1474); (1476, 1477); (1479, 1479);
   (1524, 1524); (1536, 1541); (1552, 1562); (1564, 1564); (1600, 1600);
   (1611, 1631); (1648, 1648); (1750, 1757); (1759, 1768); (1770, 1773);
   (1807, 1807); (1809, 1809); (1840, 1866); (1958, 1968); (2027, 2037);
   (2042, 2042); (2045, 2045); (2070, 2093); (2137, 2139); (2184, 2184);
   (2192, 2193); (2200, 2207); (2249, 2306); (2362, 2362); (2364, 2364);
   (2369, 2376); (2381, 2381); (2385, 2391); (2402, 2403); (2417, 2417);
   (2433, 2433); (2492, 2492); (2497, 2500); (2509, 2509); (2530, 2531);
   (2558, 2558); (2561, 2562); (2620, 2620); (2625, 2626); (2631, 2632);
   (2635, 2637); (2641, 2641); (2672, 2673); (2677, 2677); (2689, 2690);
   (2748, 2748); (2753, 2757); (2759, 2760); (2765, 2765); (2786, 2787);
   (2810, 2815); (2817, 2817); (2876, 2876); (2879, 2879); (2881, 2884);
   (2893, 2893); (2901, 2902); (2914, 2915); (2946, 2946); (3008, 3008);
   (3021, 3021); (3072, 3072); (3076, 3076); (3132, 3132); (3134, 3136);
   (3142, 3144); (3146, 3149); (3157, 3158); (3170, 3171); (3201, 3201);
   (3260, 3260); (3263, 3263); (3270, 3270); (3276, 3277); (3298, 3299);
   (3328, 3329); (3387, 3388); (3393, 3396); (3405, 3405); (3426, 3427);
   (3457, 3457); (3530, 3530); (3538, 3540); (3542, 3542); (3633, 3633);
   (3636, 3642); (3654, 3662); (3761, 3761); (3764, 3772); (3782, 3782);
   (3784, 3789); (3864, 3865); (3893, 3893); (3895, 3895); (3897, 3897);
   (3953, 3966); (3968, 3972); (3974, 3975); (3981, 3991); (3993, 4028);
   (4038, 4038); (4141, 4144); (4146, 4151); (4153, 4154); (4157, 4158);
   (4184, 4185); (4190, 4192); (4209, 4212); (4226, 4226); (4229, 4230);
   (4237, 4237); (4253, 4253); (4348, 4348); (4957, 4959); (5906, 5908);
   (5938, 5939); (5970, 5971); (6002, 6003); (6068, 6069); (6071, 6077);
   (6086, 6086); (6089, 6099); (6103, 6103); (6109, 6109); (6155, 6159);
   (6211, 6211); (6277, 6278); (6313, 6313); (6432, 6434); (6439, 6440);
   (6450, 6450); (6457, 6459); (6679, 6680); (6683, 6683); (6742, 6742);
   (6744, 6750); (6752, 6752); (6754, 6754); (6757, 6764); (6771, 6780);
   (6783, 6783); (6823, 6823); (6832, 6862); (6912, 6915); (6964, 6964);
   (6966, 6970); (6972, 6972); (6978, 6978); (7019, 7027); (7040, 7041);
   (7074, 7077); (7080, 7081); (7083, 7085); (7142, 7142); (7144, 7145);
   (7149, 7149); (7151, 7153); (7212, 7219); (7222, 7223); (7288, 7293);
   (7376, 7378); (7380, 7392); (7394, 7400); (7405, 7405); (7412, 7412);
   (7416, 7417); (7468, 7530); (7544, 7544); (7579, 7679); (8125, 8125);
   (8127, 8129); (8141, 8143); (8157, 8159); (8173, 8175); (8189, 8190);
   (8203, 8207); (8216, 8217); (8228, 8228); (8231, 8231); (8234, 8238);
   (8288, 8292); (8294, 8303); (8305, 8305); (8319, 8319); (8336, 8348);
   (8400, 8432); (11388, 11389); (11503, 11505); (11631, 11631);
   (11647, 11647); (11744, 11775); (11823, 11823); (12293, 12293);
   (12330, 12333); (12337, 12341); (12347, 12347); (12441, 12446);
   (12540, 12542); (40981, 40981); (42232, 42237); (42508, 42508);
   (42607, 42610); (42612, 42621); (42623, 42623); (42652, 42655);
   (42736, 42737); (42752, 42785); (42864, 42864); (42888, 42890);
   (42994, 42996); (43000, 43001); (43010, 43010); (43014, 43014);
   (43019, 43019); (43045, 43046); (43052, 43052); (43204, 43205);
   (43232, 43249); (43263, 43263); (43302, 43309); (43335, 43345);
   (43392, 43394); (43443, 43443); (43446, 43449); (43452, 43453);
   (43471, 43471); (43493, 43494); (43561, 43566); (43569, 43570);
   (43573, 43574); (43587, 43587); (43596, 43596); (43632, 43632);
   (43644, 43644); (43696, 43696); (43698, 43700); (43703, 43704);
   (43710, 43711); (43713, 43713); (43741, 43741); (43756, 43757);
   (43763, 43764); (43766, 43766); (43867, 43871); (43881, 43883);
   (44005, 44005); (44008, 44008); (44013, 44013); (64286, 64286);
   (64434, 64450); (65024, 65039); (65043, 65043); (65056, 65071);
   (65106, 65106); (65109, 65109); (65279, 65279); (65287, 65287);
   (65294, 65294); (65306, 65306); (65342, 65342); (65344, 65344);
   (65392, 65392); (65438, 65439); (65507, 65507); (65529, 65531);
   (66045, 66045); (66272, 66272); (66422, 66426); (67456, 67461);
   (67463, 67504); (67506, 67514); (68097, 68099); (68101, 68102);
   (68108, 68111); (68152, 68154); (68159, 68159); (68325, 68326);
   (68900, 68903); (69291, 69292); (69446, 69456); (69506, 69509);
   (69633, 69633); (69688, 69702); (69744, 69744); (69747, 69748);
   (69759, 69761); (69811, 69814); (69817, 69818); (69821, 69821);
   (69826, 69826); (69837, 69837); (69888, 69890); (69927, 69931);
   (69933, 69940); (70003, 70003); (70016, 70017); (70070, 70078);
   (70089, 70092); (70095, 70095); (70191, 70193); (70196, 70196);
   (70198, 70199); (70206, 70206); (70367, 70367); (70371, 70378);
   (70400, 70401); (70459, 70460); (70464, 70464); (70502, 70508);
   (70512, 70516); (70712, 70719); (70722, 70724); (70726, 70726);
   (70750, 70750); (70835, 70840); (70842, 70842); (70847, 70848);
   (70850, 70851); (71090, 71093); (71100, 71101); (71103, 71104);
   (71132, 71133); (71219, 71226); (71229, 71229); (71231, 71232);
   (71339, 71339); (71341, 71341); (71344, 71349); (71351, 71351);
   (71453, 71455); (71458, 71461); (71463, 71467); (71727, 71735);
   (71737, 71738); (71995, 71996); (71998, 71998); (72003, 72003);
   (72148, 72151); (72154, 72155); (72160, 72160); (72193, 72202);
   (72243, 72248); (72251, 72254); (72263, 72263); (72273, 72278);
   (72281, 72283); (72330, 72342); (72344, 72345); (72752, 72758);
   (72760, 72765); (72767, 72767); (72850, 72871); (72874, 72880);
   (72882, 72883); (72885, 72886); (73009, 73014); (73018, 73018);
   (73020, 73021); (73023, 73029); (73031, 73031); (73104, 73105);
   (73109, 73109); (73111, 73111); (73459, 73460); (78896, 78904);
   (92912, 92916); (92976, 92982); (92992, 92995); (94031, 94031);
   (94095, 94111); (94176, 94177); (94179, 94180); (110576, 110579);
   (110581, 110587); (110589, 110590); (113821, 113822); (113824, 113827);
   (118528, 118573); (118576, 118598); (119143, 119145); (119155, 119170);
   (119173, 119179); (119210, 119213); (119362, 119364); (121344, 121398);
   (121403, 121452); (121461, 121461); (121476, 121476); (121499, 121503);
   (121505, 121519); (122880, 122886); (122888, 122904); (122907, 122913);
   (122915, 122916); (122918, 122922); (123184, 123197); (123566, 123566);
   (123628, 123631); (125136, 125142); (125252, 125259); (127995, 127999);
   (917505, 917505); (917536, 917631); (917760, 917999)]%N.

Definition inRanges (table : list (N * N)) (cp : N) : bool :=
  existsb (fun '(lo, hi) => (lo <=? cp)%N && (cp <=? hi)%N) table.

(** A cased letter for the purpose of the final-sigma rule: Cased and
    not Case_Ignorable. *)
Definition cased (cp : N) : bool := inRanges casedRanges cp.

Definition caseIgnorable (cp : N) : bool := inRanges caseIgnorableRanges cp.

Definition covers (cp : N) (r : N * N * N * N) : bool :=
  let '(lo, hi, step, _) := r in
  (lo <=? cp)%N && (cp <=? hi)%N && ((cp - lo) mod step =? 0)%N.

(** The simple lowercase mapping of a code point; a code point without
    one maps to itself. *)
Definition simpleLowercase (cp : N) : N :=
  match find (covers cp) lowercaseRanges with
  | Some (lo, _, _, target) => (target + (cp - lo))%N
  | None => cp
  end.

Arguments cased cp : simpl never.
Arguments caseIgnorable cp : simpl never.
Arguments simpleLowercase cp : simpl never.

End Unicode.

(** ** JavaScript primitives used by the component *)

Module JS.

(** Truthiness of a string: only the empty string is falsy. *)
Definition truthyString (s : string) : bool :=
  match s with
  | EmptyString => false
  | String _ _ => true
  end.

(** Truthiness of an integer-valued number: only zero is falsy. *)
Definition truthyNumber (n : Z) : bool := negb (n =? 0)%Z.

(** The rest of the text decides whether a sigma is final: it is not when
    a cased letter follows, case-ignorable characters being skipped. *)
Fixpoint followedByCased (cps : list N) : bool :=
  match cps with
  | [] => false
  | cp :: rest =>
      if Unicode.caseIgnorable cp then followedByCased rest
      else Unicode.cased cp
  end.

(** The lowercase mapping of one code point in its context: U+0130 maps to
    U+0069 U+0307; U+03A3 maps to the final sigma U+03C2 when a cased
    letter precedes it ([afterCased]) and none follows it, and to U+03C3
    otherwise; every other code point has its simple mapping. *)
Definition lowercaseMapping (afterCased : bool) (cp : N) (rest : list N)
    : list N :=
  if (cp =? 304)%N then [105; 775]%N
  else if (cp =? 931)%N
  then (if afterCased && negb (followedByCased rest)
        then [962]%N else [963]%N)
  else [Unicode.simpleLowercase cp].

(** [afterCased] tells whether the text read so far ends with a cased
    letter followed only by case-ignorable characters. *)
Fixpoint lowerPoints (afterCased : bool) (cps : list N) : list N :=
  match cps with
  | [] => []
  | cp :: rest =>
      (lowercaseMapping afterCased cp rest
       ++ lowerPoints (if Unicode.caseIgnorable cp then afterCased
                       else Unicode.cased cp) rest)%list
  end.

(** [String.prototype.toLowerCase]. *)
Definition toLowerCase (s : string) : string :=
  ofPoints (lowerPoints false (codePoints s)).

(** [search] occurs in [s] at position 0. *)
Fixpoint startsWith (s search : string) : bool :=
  match search, s with
  | EmptyString, _ => true
  | String _ _, EmptyString => false
  | String a search', String b s' => (a =? b)%N && startsWith s' search'
  end.

(** [String.prototype.includes]: [search] occurs in [s] at some position. *)
Fixpoint includes (s search : string) : bool :=
  startsWith s search ||
  match s with
  | EmptyString => false
  | String _ s' => includes s' search
  end.

(** [Array.prototype.slice(0, n)]. *)
Definition slice0 (A : Type) (n : nat) (l : list A) : list A := firstn n l.

(** The digits of a decimal numeral as code units. *)
Fixpoint digitsString (d : uint) : string :=
  match d with
  | Nil => EmptyString
  | D0 d' => String 48 (digitsString d')
  | D1 d' => String 49 (digitsString d')
  | D2 d' => String 50 (digitsString d')
  | D3 d' => String 51 (digitsString d')
  | D4 d' => String 52 (digitsString d')
  | D5 d' => String 53 (digitsString d')
  | D6 d' => String 54 (digitsString d')
  | D7 d' => String 55 (digitsString d')
  | D8 d' => String 56 (digitsString d')
  | D9 d' => String 57 (digitsString d')
  end.

(** Number-to-string conversion of an integer-valued number, as a template
    literal performs it: the decimal digits, with a leading minus sign when
    negative.  This is what JavaScript prints for the integers every
    double represents exactly, up to 2^53 in absolute value. *)
Definition numberToString (n : Z) : string :=
  match n with
  | Z0 => "0"
  | Zpos p => digitsString (Pos.to_uint p)
  | Zneg p => String 45 (digitsString (Pos.to_uint p))
  end.

(** White space and line terminators, as [parseInt] skips them: TAB, LF,
    VT, FF, CR, the space, the no-break space, the space separators
    U+1680, U+2000-U+200A, U+202F, U+205F and U+3000, the line and
    paragraph separators U+2028 and U+2029, and U+FEFF. *)
Definition isWhiteSpace (c : codeUnit) : bool :=
  ((9 <=? c) && (c <=? 13) || (c =? 32) || (c =? 160) || (c =? 5760)
   || (8192 <=? c) && (c <=? 8202) || (c =? 8232) || (c =? 8233)
   || (c =? 8239) || (c =? 8287) || (c =? 12288) || (c =? 65279))%N.

Fixpoint trimStart (s : string) : string :=
  match s with
  | EmptyString => EmptyString
  | String c s' => if isWhiteSpace c then trimStart s' else s
  end.

(** Value of a code unit as a digit: 0-9, a-z, A-Z. *)
Definition digitValue (c : codeUnit) : option N :=
  if ((48 <=? c) && (c <=? 57))%N then Some (c - 48)%N
  else if ((97 <=? c) && (c <=? 122))%N then Some (c - 87)%N
  else if ((65 <=? c) && (c <=? 90))%N then Some (c - 55)%N
  else None.

(** The digits of the longest prefix of [s] made of radix-[R] digits. *)
Fixpoint radixDigits (R : N) (s : string) : list N :=
  match s with
  | EmptyString => []
  | String c s' =>
      match digitValue c with
      | Some d => if (d <? R)%N then d :: radixDigits R s' else []
      | None => []
      end
  end.

(** The integer a digit sequence denotes in radix [R]. *)
Definition mathInt (R : N) (ds : list N) : N :=
  fold_left (fun acc d => (acc * R + d)%N) ds 0%N.

(** One leading sign: [-] (45) or [+] (43). *)
Definition readSign (s : string) : Z * string :=
  match s with
  | String c rest =>
      if (c =? 45)%N then ((-1)%Z, rest)
      else if (c =? 43)%N then (1%Z, rest)
      else (1%Z, s)
  | EmptyString => (1%Z, s)
  end.

(** A [0x] or [0X] prefix (48 then 120 or 88) selects radix 16. *)
Definition readRadix (s : string) : N * string :=
  match s with
  | String c0 s1 =>
      if (c0 =? 48)%N
      then match s1 with
           | String c1 rest =>
               if ((c1 =? 120) || (c1 =? 88))%N then (16%N, rest)
               else (10%N, s)
           | EmptyString => (10%N, s)
           end
      else (10%N, s)
  | EmptyString => (10%N, s)
  end.

(** A number as an arithmetic operation yields it.  The finite values met
    here are integers; the two zeros are not told apart. *)
Inductive Number : Type :=
| NaN
| Infinity (negative : bool)
| Finite (value : Z).

Definition two53 : Z := 9007199254740992.

(** The bound from which a magnitude overflows binary64: 2^1024. *)
Definition overflow : Z := 2 ^ 1024.

(** The magnitude of the binary64 nearest to a non-negative integer, ties
    going to the even significand: below 2^53 every integer is exact, above
    the 53 leading bits are kept and the rest is rounded. *)
Definition roundMagnitude (a : Z) : Z :=
  if (a <? two53)%Z then a
  else
    let e := (Z.log2 a - 52)%Z in
    let q := (a / 2 ^ e)%Z in
    let r := (a mod 2 ^ e)%Z in
    let half := (2 ^ (e - 1))%Z in
    let q' := if (r <? half)%Z then q
              else if (half <? r)%Z then (q + 1)%Z
              else if Z.even q then q else (q + 1)%Z in
    (q' * 2 ^ e)%Z.

(** The Number value for a mathematical integer. *)
Definition numberValue (z : Z) : Number :=
  let m := roundMagnitude (Z.abs z) in
  if (m <? overflow)%Z then Finite (Z.sgn z * m)
  else Infinity (z <? 0)%Z.

(** [parseInt(string)] with the radix left out: leading white space is
    skipped, one sign is read, a [0x] / [0X] prefix selects radix 16
    (otherwise 10), and the longest digit prefix is converted to the
    Number value of the integer it denotes; with no digit the result is
    [NaN].  Whatever follows the digits is ignored.  (Past the 20th
    significant decimal digit an engine may read the digits as zeros; the
    digits are all kept here.) *)
Definition parseInt (input : string) : Number :=
  let '(sign, S1) := readSign (trimStart input) in
  let '(R, S2) := readRadix S1 in
  match radixDigits R S2 with
  | [] => NaN
  | ds => numberValue (sign * Z.of_N (mathInt R ds))
  end.

(** Multiplication of a number by a non-zero integer constant that
    binary64 represents exactly: the exact product, rounded. *)
Definition times (k : Z) (x : Number) : Number :=
  match x with
  | NaN => NaN
  | Infinity negative => Infinity (xorb negative (k <? 0)%Z)
  | Finite n => numberValue (n * k)
  end.

(** The time value of [new Date(value)]: [TimeClip], which yields [NaN]
    ([None]) for a value that is not finite or lies beyond 8.64e15
    milliseconds from the epoch. *)
Definition maxTime : Z := 8640000000000000.

Definition newDate (value : Number) : option Z :=
  match value with
  | Finite t => if (Z.abs t <=? maxTime)%Z then Some t else None
  | _ => None
  end.

End JS.

(** ** Data model: the exported interfaces *)

Module PacketInfo.
Record t : Type := Build {
  timestamp : string;
  length : Z;
  protocol : string;
  source : string;
  destination : string;
  source_port : option Z;
  dest_port : option Z;
  flags : option string;
  sequence : option Z;
  ttl : Z;
  identification : Z
}.

Definition with_timestamp (ts : string) (p : t) : t :=
  Build ts (length p) (protocol p) (source p) (destination p)
        (source_port p) (dest_port p) (flags p) (sequence p)
        (ttl p) (identification p).

Definition with_source_port (port : option Z) (p : t) : t :=
  Build (timestamp p) (length p) (protocol p) (source p) (destination p)
        port (dest_port p) (flags p) (sequence p)
        (ttl p) (identification p).

Definition with_dest_port (port : option Z) (p : t) : t :=
  Build (timestamp p) (length p) (protocol p) (source p) (destination p)
        (source_port p) port (flags p) (sequence p)
        (ttl p) (identification p).
End PacketInfo.

Module CaptureStatus.
Record t : Type := Build {
  success : bool;
  message : string;
  interface_name : option string
}.
End CaptureStatus.

Module InterfaceInfo.
Record t : Type := Build {
  name : string;
  description : option string;
  mac : option string;
  ipv4 : list string
}.
End InterfaceInfo.

(** The object held by the [filters] hook. *)
Module Filters.
Record t : Type := Build {
  protocol : string;
  source : string;
  destination : string
}.
End Filters.

(** ** Component state: one field per [useState] hook *)

Record State : Type := mkState {
  interfaces : list InterfaceInfo.t;
  selectedInterface : string;
  isCapturing : bool;
  status : option CaptureStatus.t;
  packets : list PacketInfo.t;
  filters : Filters.t
}.

Definition initialState : State :=
  mkState [] "" false None [] (Filters.Build "" "" "").

Definition setInterfaces (v : list InterfaceInfo.t) (st : State) : State :=
  mkState v (selectedInterface st) (isCapturing st) (status st)
          (packets st) (filters st).

Definition setSelectedInterface (v : string) (st : State) : State :=
  mkState (interfaces st) v (isCapturing st) (status st)
          (packets st) (filters st).

Definition setIsCapturing (v : bool) (st : State) : State :=
  mkState (interfaces st) (selectedInterface st) v (status st)
          (packets st) (filters st).

Definition setStatus (v : option CaptureStatus.t) (st : State) : State :=
  mkState (interfaces st) (selectedInterface st) (isCapturing st) v
          (packets st) (filters st).

(** [setPackets] is used both with a value and with an updater function;
    the updater form subsumes the other. *)
Definition setPackets (f : list PacketInfo.t -> list PacketInfo.t)
    (st : State) : State :=
  mkState (interfaces st) (selectedInterface st) (isCapturing st) (status st)
          (f (packets st)) (filters st).

Definition setFilters (f : Filters.t -> Filters.t) (st : State) : State :=
  mkState (interfaces st) (selectedInterface st) (isCapturing st) (status st)
          (packets st) (f (filters st)).

(** ** Effects: settled promises and the console *)

Inductive InvokeResult (A : Type) : Type :=
| Resolved (value : A)
| Rejected (error : string).

Arguments Resolved {A} value.
Arguments Rejected {A} error.

(** One [console.error] call: its arguments. *)
Definition LogLine : Type := list string.

(** A handler yields the next state and what it logged. *)
Definition Outcome : Type := (State * list LogLine)%type.

Definition silent (st : State) : Outcome := (st, []).

(** ** The listeners registered in [useEffect] *)

(** The number of packets kept by the [packet-captured] listener. *)
Definition CAPACITY : nat := 1000.

(** [listen("packet-captured", ...)]:
    [setPackets((prev) => [event.payload, ...prev].slice(0, 1000))]. *)
Definition onPacketCaptured (payload : PacketInfo.t) (st : State) : State :=
  setPackets (fun prev => JS.slice0 CAPACITY (payload :: prev)) st.

(** [listen("capture-status", ...)]: [setStatus(event.payload)], then
    [setIsCapturing(false)] when the payload reports a failure. *)
Definition onCaptureStatus (payload : CaptureStatus.t) (st : State) : State :=
  let st1 := setStatus (Some payload) st in
  if negb (CaptureStatus.success payload)
  then setIsCapturing false st1
  else st1.

(** [invoke("list_interfaces").then(setInterfaces).catch(console.error)]. *)
Definition onInterfacesLoaded (r : InvokeResult (list InterfaceInfo.t))
    (st : State) : Outcome :=
  match r with
  | Resolved l => silent (setInterfaces l st)
  | Rejected e => (st, [[e]])
  end.

(** ** The capture handlers *)

(** The argument [startCapture] passes to [invoke]:
    [interfaceName: selectedInterface || null]. *)
Definition startCaptureArg (st : State) : option string :=
  if JS.truthyString (selectedInterface st)
  then Some (selectedInterface st)
  else None.

(** [startCapture], from the point where [await invoke("start_capture", ...)]
    settles: on success [setIsCapturing(true)] then [setPackets([])]; a
    rejection is caught and only logged. *)
Definition startCapture (r : InvokeResult unit) (st : State) : Outcome :=
  match r with
  | Resolved _ =>
      silent (setPackets (fun _ => []) (setIsCapturing true st))
  | Rejected error => (st, [["Failed to start capture:"; error]])
  end.

(** [stopCapture], from the point where [await invoke("stop_capture")]
    settles: on success [setIsCapturing(false)]; a rejection is caught and
    only logged. *)
Definition stopCapture (r : InvokeResult unit) (st : State) : Outcome :=
  match r with
  | Resolved _ => silent (setIsCapturing false st)
  | Rejected error => (st, [["Failed to stop capture:"; error]])
  end.

(** The command behind the button:
    [onClick={isCapturing ? stopCapture : startCapture}]. *)
Inductive Command : Type :=
| InvokeStartCapture (interfaceName : option string)
| InvokeStopCapture.

Definition onButtonClick (st : State) : Command :=
  if isCapturing st then InvokeStopCapture
  else InvokeStartCapture (startCaptureArg st).

(** ** Everything that can happen to the component *)

Inductive Event : Type :=
| InterfacesLoaded (r : InvokeResult (list InterfaceInfo.t))
| PacketCaptured (payload : PacketInfo.t)
| CaptureStatusReceived (payload : CaptureStatus.t)
| StartCaptureSettled (r : InvokeResult unit)
| StopCaptureSettled (r : InvokeResult unit)
| InterfaceSelected (value : string)
| ProtocolFilterChanged (value : string)
| SourceFilterChanged (value : string)
| DestinationFilterChanged (value : string).

Definition step (ev : Event) (st : State) : Outcome :=
  match ev with
  | InterfacesLoaded r => onInterfacesLoaded r st
  | PacketCaptured p => silent (onPacketCaptured p st)
  | CaptureStatusReceived s => silent (onCaptureStatus s st)
  | StartCaptureSettled r => startCapture r st
  | StopCaptureSettled r => stopCapture r st
  | InterfaceSelected v => silent (setSelectedInterface v st)
  | ProtocolFilterChanged v =>
      silent (setFilters (fun prev =>
        Filters.Build v (Filters.source prev) (Filters.destination prev)) st)
  | SourceFilterChanged v =>
      silent (setFilters (fun prev =>
        Filters.Build (Filters.protocol prev) v (Filters.destination prev)) st)
  | DestinationFilterChanged v =>
      silent (setFilters (fun prev =>
        Filters.Build (Filters.protocol prev) (Filters.source prev) v) st)
  end.

(** Events handled one after the other, the console accumulating. *)
Fixpoint run (evs : list Event) (st : State) : Outcome :=
  match evs with
  | [] => silent st
  | ev :: evs' =>
      let '(st1, log1) := step ev st in
      let '(st2, log2) := run evs' st1 in
      (st2, (log1 ++ log2)%list)
  end.

(** ** The rendered view *)

(** The callback given to [packets.filter]. *)
Definition matchesFilters (f : Filters.t) (packet : PacketInfo.t) : bool :=
  (negb (JS.truthyString (Filters.protocol f))
   || JS.includes (JS.toLowerCase (PacketInfo.protocol packet))
                  (JS.toLowerCase (Filters.protocol f)))
  && (negb (JS.truthyString (Filters.source f))
      || JS.includes (PacketInfo.source packet) (Filters.source f))
  && (negb (JS.truthyString (Filters.destination f))
      || JS.includes (PacketInfo.destination packet) (Filters.destination f)).

(** [filteredPackets], as a function of the two hooks it reads. *)
Definition applyFilters (f : Filters.t) (records : list PacketInfo.t)
    : list PacketInfo.t :=
  filter (matchesFilters f) records.

Definition filteredPackets (st : State) : list PacketInfo.t :=
  applyFilters (filters st) (packets st).

(** The argument of [new Date(...)] in the time cell:
    [parseInt(packet.timestamp) * 1000]. *)
Definition timeMillis (packet : PacketInfo.t) : JS.Number :=
  JS.times 1000 (JS.parseInt (PacketInfo.timestamp packet)).

(** The [":port"] suffix of an address cell. *)
Definition portSuffix (port : option Z) : string :=
  match port with
  | Some n => if JS.truthyNumber n then ":" ++ JS.numberToString n else ""
  | None => ""
  end.

Definition sourceCell (packet : PacketInfo.t) : string :=
  PacketInfo.source packet ++ portSuffix (PacketInfo.source_port packet).

Definition destinationCell (packet : PacketInfo.t) : string :=
  PacketInfo.destination packet ++ portSuffix (PacketInfo.dest_port packet).

(** [packet.flags || "-"]. *)
Definition flagsCell (packet : PacketInfo.t) : string :=
  match PacketInfo.flags packet with
  | Some s => if JS.truthyString s then s else "-"
  | None => "-"
  end.

Record Row : Type := mkRow {
  timeCell : string;
  protocolCell : string;
  srcCell : string;
  dstCell : string;
  lengthCell : string;
  flgCell : string;
  ttlCell : string
}.

Section Rendering.

(** [Date.prototype.toLocaleTimeString] depends on the host's locale and
    time zone; it is a function of the date's time value ([None] for an
    invalid date). *)
Variable toLocaleTimeString : option Z -> string.

Definition renderTime (packet : PacketInfo.t) : string :=
  toLocaleTimeString (JS.newDate (timeMillis packet)).

Definition renderRow (packet : PacketInfo.t) : Row :=
  mkRow (renderTime packet)
        (PacketInfo.protocol packet)
        (sourceCell packet)
        (destinationCell packet)
        (JS.numberToString (PacketInfo.length packet))
        (flagsCell packet)
        (JS.numberToString (PacketInfo.ttl packet)).

(** The table body: [filteredPackets.map(...)]. *)
Definition renderRows (st : State) : list Row :=
  map renderRow (filteredPackets st).

End Rendering.


(** ** Specification vocabulary *)

(** [needle] occurs in [hay] as a contiguous run, compared exactly. *)
Definition Substring (needle hay : string) : Prop :=
  exists pre post, hay = pre ++ needle ++ post.

(** The text is ASCII: every code unit is below 128. *)
Fixpoint asciiOnly (s : string) : bool :=
  match s with
  | EmptyString => true
  | String c s' => (c <? 128)%N && asciiOnly s'
  end.

(** An upper-case ASCII letter, A to Z. *)
Definition isUpperLetter (c : codeUnit) : bool :=
  ((65 <=? c) && (c <=? 90))%N.

(** Two code units are the same ASCII letter in either case, or the same
    code unit: a lower-case letter is 32 above its upper-case form. *)
Definition sameLetter (x y : codeUnit) : bool :=
  ((x =? y) || isUpperLetter x && (y =? x + 32)
   || isUpperLetter y && (x =? y + 32))%N.

(** ASCII lower-casing of one code unit, written out: A to Z move up by
    32, every other code unit stays. *)
Definition asciiLower (c : codeUnit) : codeUnit :=
  if isUpperLetter c then (c + 32)%N else c.

Fixpoint mapUnits (f : codeUnit -> codeUnit) (s : string) : string :=
  match s with
  | EmptyString => EmptyString
  | String c s' => String (f c) (mapUnits f s')
  end.

(** Two strings are equal up to the case of ASCII letters: same length,
    and the same letter at every position. *)
Fixpoint EqIgnoringCase (a b : string) : Prop :=
  match a, b with
  | EmptyString, EmptyString => True
  | String x a', String y b' => sameLetter x y = true /\ EqIgnoringCase a' b'
  | _, _ => False
  end.

(** Some contiguous run of [hay] equals [needle] up to letter case. *)
Definition SubstringIgnoringCase (needle hay : string) : Prop :=
  exists pre mid post, hay = pre ++ mid ++ post /\ EqIgnoringCase mid needle.

(** A sub-predicate of the filter: empty matches everything.  The protocol
    test compares the two texts after lower-casing both. *)
Definition ProtocolMatches (f : Filters.t) (p : PacketInfo.t) : Prop :=
  Filters.protocol f = "" \/
  Substring (JS.toLowerCase (Filters.protocol f))
            (JS.toLowerCase (PacketInfo.protocol p)).

Definition SourceMatches (f : Filters.t) (p : PacketInfo.t) : Prop :=
  Filters.source f = "" \/
  Substring (Filters.source f) (PacketInfo.source p).

Definition DestinationMatches (f : Filters.t) (p : PacketInfo.t) : Prop :=
  Filters.destination f = "" \/
  Substring (Filters.destination f) (PacketInfo.destination p).

Definition Matches (f : Filters.t) (p : PacketInfo.t) : Prop :=
  ProtocolMatches f p /\ SourceMatches f p /\ DestinationMatches f p.

(** The filter as it would be if the protocol test were a substring test
    up to some notion [E] of equality ignoring case. *)
Definition MatchesIgnoringCase (E : string -> string -> Prop)
    (f : Filters.t) (p : PacketInfo.t) : Prop :=
  (Filters.protocol f = "" \/
   exists pre mid post,
     PacketInfo.protocol p = pre ++ mid ++ post /\ E mid (Filters.protocol f))
  /\ SourceMatches f p /\ DestinationMatches f p.

(** The protocol contains the letters t, c, p in a row, each in either
    case. *)
Definition ContainsTcp (protocol : string) : Prop :=
  exists pre x y z post,
    protocol = pre ++ String x (String y (String z post)) /\
    (x = 84 \/ x = 116)%N /\ (y = 67 \/ y = 99)%N /\ (z = 80 \/ z = 112)%N.

(** One of the code units of "tcp". *)
Definition isTcpUnit (u : codeUnit) : bool :=
  ((u =? 116) || (u =? 99) || (u =? 112))%N.

(** The letter of "tcp" that a code point is, in either case. *)
Definition tcpLetter (cp : N) : option codeUnit :=
  if ((cp =? 84) || (cp =? 116))%N then Some 116%N
  else if ((cp =? 67) || (cp =? 99))%N then Some 99%N
  else if ((cp =? 80) || (cp =? 112))%N then Some 112%N
  else None.

(** A progression of the lowercase table is the one of A to Z, or its
    images stay clear of the code units of "tcp". *)
Definition keepsTcpApart (r : N * N * N * N) : bool :=
  let '(lo, hi, _, target) := r in
  let reaches v := ((target <=? v) && (v <=? target + (hi - lo)))%N in
  ((lo =? 65) && (hi =? 90) && (target =? 97))%N
  || negb (reaches 116%N || reaches 99%N || reaches 112%N).

(** [Selection P l r]: [r] is [l] with exactly the elements satisfying [P]
    kept, position by position, in their original order. *)
Inductive Selection (A : Type) (P : A -> Prop) : list A -> list A -> Prop :=
| Selection_nil : Selection P [] []
| Selection_keep x l r : P x -> Selection P l r -> Selection P (x :: l) (x :: r)
| Selection_drop x l r : ~ P x -> Selection P l r -> Selection P (x :: l) r.

(** The state after a run of [packet-captured] events. *)
Definition afterPackets (payloads : list PacketInfo.t) (st : State) : State :=
  fst (run (map PacketCaptured payloads) st).

(** The digits of a decimal numeral, most significant first. *)
Fixpoint uintDigits (d : uint) : list N :=
  match d with
  | Nil => []
  | D0 d' => 0%N :: uintDigits d'
  | D1 d' => 1%N :: uintDigits d'
  | D2 d' => 2%N :: uintDigits d'
  | D3 d' => 3%N :: uintDigits d'
  | D4 d' => 4%N :: uintDigits d'
  | D5 d' => 5%N :: uintDigits d'
  | D6 d' => 6%N :: uintDigits d'
  | D7 d' => 7%N :: uintDigits d'
  | D8 d' => 8%N :: uintDigits d'
  | D9 d' => 9%N :: uintDigits d'
  end.

(** The decimal numeral of an integer: its digits without leading zeros,
    after a minus sign when it is negative. *)
Definition decimal (z : Z) : string :=
  match z with
  | Z0 => "0"
  | Zpos p => JS.digitsString (Pos.to_uint p)
  | Zneg p => "-" ++ JS.digitsString (Pos.to_uint p)
  end.

(** A run of white space. *)
Fixpoint whiteSpaceOnly (s : string) : bool :=
  match s with
  | EmptyString => true
  | String c s' => JS.isWhiteSpace c && whiteSpaceOnly s'
  end.

(** A sample record and a sample failure status for concrete instances. *)
Definition samplePacket (ts proto src dst : string) (sp dp : option Z)
    : PacketInfo.t :=
  PacketInfo.Build ts 60 proto src dst sp dp None None 64 1.

Definition tcpPacket : PacketInfo.t :=
  samplePacket "1700000000" "TCP" "192.168.1.10" "10.0.0.1"
               (Some 51000%Z) (Some 443%Z).

Definition failureStatus : CaptureStatus.t :=
  CaptureStatus.Build false "device disconnected" (Some "eth0").

Definition successStatus : CaptureStatus.t :=
  CaptureStatus.Build true "Capture started" (Some "eth0").

Definition capturingState : State :=
  mkState [] "eth0" true None [tcpPacket] (Filters.Build "" "" "").

(** A buffer filled to capacity, and a run of 1001 events. *)
Definition oldPacket : PacketInfo.t :=
  samplePacket "1699999999" "UDP" "10.0.0.7" "10.0.0.1" (Some 53%Z) None.

Definition fullState : State :=
  mkState [] "eth0" true None (repeat tcpPacket 1000) (Filters.Build "" "" "").

Definition overflowingRun : list PacketInfo.t :=
  oldPacket :: repeat tcpPacket 1000.

(** A record whose protocol label is Greek, alpha then sigma, and a state
    that filters for the sigma. *)
Definition sigmaPacket : PacketInfo.t :=
  samplePacket "1700000000" "ΑΣ" "10.0.0.7" "10.0.0.1" None None.

Definition sigmaState : State :=
  mkState [] "" false None [sigmaPacket] (Filters.Build "Σ" "" "").

(** A state that filters an ASCII protocol in mixed case. *)
Definition mixedCaseState : State :=
  mkState [] "" true None [tcpPacket; oldPacket] (Filters.Build "tCp" "" "").

(** ** The controls above the table *)

(** One [<option>] of the interface [<select>]. *)
Record SelectOption : Type := mkOption {
  optionValue : string;
  optionLabel : string
}.

(** [{iface.name} - {iface.description || "No description"}]. *)
Definition interfaceDescription (iface : InterfaceInfo.t) : string :=
  match InterfaceInfo.description iface with
  | Some d => if JS.truthyString d then d else "No description"
  | None => "No description"
  end.

Definition interfaceLabel (iface : InterfaceInfo.t) : string :=
  InterfaceInfo.name iface ++ " - " ++ interfaceDescription iface.

(** The placeholder option followed by [interfaces.map(...)]. *)
Definition selectOptions (st : State) : list SelectOption :=
  mkOption "" "Select Interface"
  :: map (fun iface => mkOption (InterfaceInfo.name iface)
                                (interfaceLabel iface))
         (interfaces st).

(** [disabled={isCapturing}] on the [<select>]. *)
Definition selectDisabled (st : State) : bool := isCapturing st.

(** [{isCapturing ? "Stop Capture" : "Start Capture"}]. *)
Definition buttonLabel (st : State) : string :=
  if isCapturing st then "Stop Capture" else "Start Capture".

(** The status message: [status && (<div className=...>{status.message})]. *)
Record Banner : Type := mkBanner {
  bannerClass : string;
  bannerText : string
}.

Definition statusBanner (st : State) : option Banner :=
  match status st with
  | Some s =>
      Some (mkBanner
              ("p-3 rounded text-center " ++
               (if CaptureStatus.success s
                then "bg-green-600 text-green-100"
                else "bg-red-600 text-red-700"))
              (CaptureStatus.message s))
  | None => None
  end.

(** ** More specification vocabulary *)

(** A record with its [flags] field replaced. *)
Definition withFlags (fl : option string) (p : PacketInfo.t) : PacketInfo.t :=
  PacketInfo.Build (PacketInfo.timestamp p) (PacketInfo.length p)
    (PacketInfo.protocol p) (PacketInfo.source p) (PacketInfo.destination p)
    (PacketInfo.source_port p) (PacketInfo.dest_port p) fl
    (PacketInfo.sequence p) (PacketInfo.ttl p) (PacketInfo.identification p).

(** The payload of the most recent [capture-status] event of a run, or
    [before] when the run has none. *)
Definition lastStatus (evs : list Event) (before : option CaptureStatus.t)
    : option CaptureStatus.t :=
  fold_left (fun acc ev =>
               match ev with
               | CaptureStatusReceived s => Some s
               | _ => acc
               end) evs before.

(** The event is the rejection of one of the three [invoke] calls. *)
Definition isRejection (ev : Event) : bool :=
  match ev with
  | InterfacesLoaded (Rejected _) => true
  | StartCaptureSettled (Rejected _) => true
  | StopCaptureSettled (Rejected _) => true
  | _ => false
  end.

(** The event comes from the operator editing a control: choosing an
    interface or typing in one of the three filter inputs. *)
Definition isEdit (ev : Event) : bool :=
  match ev with
  | InterfaceSelected _ => true
  | ProtocolFilterChanged _ => true
  | SourceFilterChanged _ => true
  | DestinationFilterChanged _ => true
  | _ => false
  end.

(** [narrow] asks at least as much as [wide]: each text of [wide] occurs
    inside the corresponding text of [narrow] (as after typing more
    characters before or after it). *)
Definition Narrows (narrow wide : Filters.t) : Prop :=
  Substring (Filters.protocol wide) (Filters.protocol narrow) /\
  Substring (Filters.source wide) (Filters.source narrow) /\
  Substring (Filters.destination wide) (Filters.destination narrow).

(** A state with room left in the buffer and an active filter. *)
Definition filteringState : State :=
  mkState [] "" true None [oldPacket] (Filters.Build "tcp" "" "").

(** The largest number of whole seconds [new Date] accepts once scaled to
    milliseconds. *)
Definition maxSeconds : N := 8640000000000.

(** The code unit can open a number for [parseInt]: white space, a sign
    or a decimal digit. *)
Definition opensNumber (c : codeUnit) : bool :=
  JS.isWhiteSpace c || (c =? 45)%N || (c =? 43)%N
  || match JS.digitValue c with
     | Some d => (d <? 10)%N
     | None => false
     end.

(** The code unit ends a decimal number: it is no decimal digit, and it is
    not the [x] / [X] that would turn a leading 0 into a hexadecimal
    prefix. *)
Definition endsNumber (c : codeUnit) : bool :=
  match JS.digitValue c with
  | Some d => (10 <=? d)%N && negb (d =? 33)%N
  | None => true
  end.

(** What may follow the digits of a number: nothing, or a code unit that
    ends the number and anything after it. *)
Inductive NumberEnd : string -> Prop :=
| EndOfText : NumberEnd ""
| EndUnit (c : codeUnit) (rest : string) :
    endsNumber c = true -> NumberEnd (String c rest).

(** A loaded interface and a state that lists it. *)
Definition eth0 : InterfaceInfo.t :=
  InterfaceInfo.Build "eth0" (Some "Ethernet") None ["192.168.1.10"].

Definition listingState : State :=
  mkState [eth0] "" false None [] (Filters.Build "" "" "").

(** * Properties *)

(** ** Capture lifecycle *)

Lemma setPackets_isCapturing f st :
  isCapturing (setPackets f st) = isCapturing st.
Proof. reflexivity. Qed.

Lemma state_eta st :
  mkState (interfaces st) (selectedInterface st) (isCapturing st)
          (status st) (packets st) (filters st) = st.
Proof. destruct st; reflexivity. Qed.

(** C3. When [start_capture] resolves, whatever the state was at that
    moment, the packet buffer is empty and [isCapturing] is true afterwards;
    the other hooks are untouched and nothing is logged. *)
Theorem startCapture_success (st : State) :
  let st' := fst (startCapture (Resolved tt) st) in
  packets st' = [] /\
  isCapturing st' = true /\
  status st' = status st /\
  filters st' = filters st /\
  snd (startCapture (Resolved tt) st) = [].
Proof. simpl. repeat split. Qed.

Lemma run_app (evs1 evs2 : list Event) :
  forall st,
    fst (run (evs1 ++ evs2) st) = fst (run evs2 (fst (run evs1 st))).
Proof.
  induction evs1 as [|ev evs1 IH]; intro st; [reflexivity|].
  change (run ((ev :: evs1) ++ evs2) st)
    with (let '(st1, log1) := step ev st in
          let '(st2, log2) := run (evs1 ++ evs2) st1 in
          (st2, (log1 ++ log2)%list)).
  change (run (ev :: evs1) st)
    with (let '(st1, log1) := step ev st in
          let '(st2, log2) := run evs1 st1 in
          (st2, (log1 ++ log2)%list)).
  destruct (step ev st) as [st1 log1].
  specialize (IH st1).
  destruct (run (evs1 ++ evs2) st1) as [st2 log2].
  destruct (run evs1 st1) as [st3 log3].
  exact IH.
Qed.

(** Whatever events were handled while the call was pending, the state
    right after the resolution has an empty buffer and is capturing. *)
Lemma start_resolution_after_any_events (evs : list Event) (st : State) :
  let st' := fst (run (evs ++ [StartCaptureSettled (Resolved tt)]) st) in
  packets st' = [] /\ isCapturing st' = true.
Proof.
  cbn zeta. rewrite run_app. split; reflexivity.
Qed.

(** C4. When [start_capture] is rejected, with any error whatsoever, the
    component state is exactly what it was: the buffer is not cleared and
    [isCapturing] keeps its value; the only effect is one logged line. *)
Theorem startCapture_failure_noop (error : string) (st : State) :
  let st' := fst (startCapture (Rejected error) st) in
  st' = st /\
  packets st' = packets st /\
  isCapturing st' = isCapturing st /\
  snd (startCapture (Rejected error) st)
    = [["Failed to start capture:"; error]].
Proof. simpl. repeat split. Qed.

(** C6. When [stop_capture] resolves, [isCapturing] is false afterwards;
    when it is rejected, with any error, [isCapturing] and the packet buffer
    (indeed the whole state) are unchanged. *)
Theorem stopCapture_outcomes (error : string) (st : State) :
  isCapturing (fst (stopCapture (Resolved tt) st)) = false /\
  packets (fst (stopCapture (Resolved tt) st)) = packets st /\
  fst (stopCapture (Rejected error) st) = st /\
  isCapturing (fst (stopCapture (Rejected error) st)) = isCapturing st /\
  packets (fst (stopCapture (Rejected error) st)) = packets st.
Proof. simpl. repeat split. Qed.

(** C7. Every [capture-status] event stores its payload as the last status,
    and a payload whose success flag is false leaves [isCapturing] false,
    whatever it was before. *)
Theorem onCaptureStatus_records_and_stops
    (payload : CaptureStatus.t) (st : State) :
  status (onCaptureStatus payload st) = Some payload /\
  (CaptureStatus.success payload = false ->
   isCapturing (onCaptureStatus payload st) = false).
Proof.
  unfold onCaptureStatus.
  destruct (CaptureStatus.success payload); simpl; split;
    try reflexivity; intro H; discriminate H.
Qed.

Lemma onCaptureStatus_records_and_stops_witness :
  isCapturing capturingState = true /\
  CaptureStatus.success failureStatus = false /\
  status (onCaptureStatus failureStatus capturingState) = Some failureStatus /\
  isCapturing (onCaptureStatus failureStatus capturingState) = false.
Proof.
  split; [reflexivity|]. split; [reflexivity|].
  split.
  - exact (proj1 (onCaptureStatus_records_and_stops failureStatus
                    capturingState)).
  - exact (proj2 (onCaptureStatus_records_and_stops failureStatus
                    capturingState) eq_refl).
Defined.

(** C9. A [capture-status] event whose success flag is true changes the
    last-status field and nothing else: [isCapturing], the packet buffer and
    every other hook keep their values.  In particular it never turns
    [isCapturing] on. *)
Theorem onCaptureStatus_success_frame
    (payload : CaptureStatus.t) (st : State) :
  CaptureStatus.success payload = true ->
  onCaptureStatus payload st = setStatus (Some payload) st /\
  isCapturing (onCaptureStatus payload st) = isCapturing st /\
  packets (onCaptureStatus payload st) = packets st /\
  interfaces (onCaptureStatus payload st) = interfaces st /\
  selectedInterface (onCaptureStatus payload st) = selectedInterface st /\
  filters (onCaptureStatus payload st) = filters st.
Proof.
  intro Hok. unfold onCaptureStatus. rewrite Hok. simpl. repeat split.
Qed.

Lemma onCaptureStatus_success_frame_witness :
  CaptureStatus.success successStatus = true /\
  isCapturing initialState = false /\
  isCapturing (onCaptureStatus successStatus initialState) = false /\
  packets (onCaptureStatus successStatus initialState) = [].
Proof.
  split; [reflexivity|]. split; [reflexivity|].
  destruct (onCaptureStatus_success_frame successStatus initialState eq_refl)
    as (_ & Hcap & Hpk & _).
  split; [exact Hcap | exact Hpk].
Defined.

(** ** The retained packet window *)

Section Firstn.
Variable A : Type.

Lemma firstn_app_firstn (n m : nat) (a b : list A) :
  n <= m -> firstn n (a ++ firstn m b) = firstn n (a ++ b).
Proof.
  intro Hle.
  rewrite !firstn_app, firstn_firstn.
  replace (Nat.min (n - List.length a) m) with (n - List.length a) by lia.
  reflexivity.
Qed.

(** Pushing onto a full window keeps everything but the last element. *)
Lemma firstn_push_full (n : nat) (x : A) (l : list A) :
  List.length l = S n ->
  exists kept oldest, l = (kept ++ [oldest])%list /\
                      firstn (S n) (x :: l) = x :: kept.
Proof.
  intro Hlen.
  assert (Hne : l <> []) by (intro E; subst l; discriminate Hlen).
  destruct l as [|y l']; [contradiction|].
  exists (removelast (y :: l')), (last (y :: l') y). split.
  - apply app_removelast_last. exact Hne.
  - rewrite firstn_cons, removelast_firstn_len, Hlen. reflexivity.
Qed.

(** Pushing onto a window with room left evicts nothing. *)
Lemma firstn_push_room (n : nat) (x : A) (l : list A) :
  List.length l < n -> firstn n (x :: l) = x :: l.
Proof.
  intro Hlt. apply firstn_all2. simpl. lia.
Qed.

End Firstn.

Lemma packets_onPacketCaptured p st :
  packets (onPacketCaptured p st) = firstn CAPACITY (p :: packets st).
Proof. reflexivity. Qed.

Lemma afterPackets_nil st : afterPackets [] st = st.
Proof. reflexivity. Qed.

Lemma afterPackets_cons p payloads st :
  afterPackets (p :: payloads) st
  = afterPackets payloads (onPacketCaptured p st).
Proof.
  unfold afterPackets. simpl.
  destruct (run (map PacketCaptured payloads) (onPacketCaptured p st)).
  reflexivity.
Qed.

(** The window after any run of packet events, from any state whose list
    respects the capacity (every reachable state does). *)
Lemma packets_afterPackets payloads :
  forall st,
    List.length (packets st) <= CAPACITY ->
    packets (afterPackets payloads st)
    = firstn CAPACITY (List.rev payloads ++ packets st)%list.
Proof.
  induction payloads as [|p payloads IH]; intros st Hcap.
  - rewrite afterPackets_nil.
    change (List.rev [] ++ packets st)%list with (packets st).
    symmetry. apply firstn_all2. exact Hcap.
  - rewrite afterPackets_cons, IH.
    + rewrite packets_onPacketCaptured.
      rewrite firstn_app_firstn by apply Nat.le_refl.
      change (List.rev (p :: payloads)) with (List.rev payloads ++ [p])%list.
      rewrite <- app_assoc. reflexivity.
    + rewrite packets_onPacketCaptured. apply firstn_le_length.
Qed.

(** C1. Starting from an empty buffer, after [k] packet events the list
    holds [min k 1000] records; the record at index [i] is the [(i+1)]-th
    most recent event, so index 0 is the newest and the list is the last
    [min k 1000] events in reverse order of arrival.  When a list is full,
    one more event puts the new record in front and drops exactly the last
    (oldest) record. *)
Theorem packet_window
    (payloads : list PacketInfo.t) (st full : State) (p : PacketInfo.t) :
  packets st = [] ->
  List.length (packets full) = CAPACITY ->
  let k := List.length payloads in
  let buf := packets (afterPackets payloads st) in
  List.length buf = Nat.min k 1000 /\
  buf = List.rev (skipn (k - 1000) payloads) /\
  (forall i, i < Nat.min k 1000 ->
     nth_error buf i = nth_error payloads (k - 1 - i)) /\
  (exists kept oldest,
     packets full = (kept ++ [oldest])%list /\
     packets (onPacketCaptured p full) = p :: kept) /\
  List.length (packets (onPacketCaptured p full)) = 1000.
Proof.
  intros Hempty Hfull k buf.
  assert (Hbuf : buf = firstn CAPACITY (List.rev payloads)).
  { unfold buf. rewrite packets_afterPackets.
    - rewrite Hempty, app_nil_r. reflexivity.
    - rewrite Hempty. simpl. apply Nat.le_0_l. }
  fold CAPACITY. repeat split.
  - rewrite Hbuf, length_firstn, length_rev. apply Nat.min_comm.
  - rewrite Hbuf. apply firstn_rev.
  - intros i Hi. rewrite Hbuf, nth_error_firstn, nth_error_rev.
    fold k.
    destruct (Nat.ltb_spec i CAPACITY) as [_|Hge]; [|lia].
    destruct (Nat.ltb_spec i k) as [_|Hge]; [|lia].
    f_equal. lia.
  - rewrite packets_onPacketCaptured.
    apply firstn_push_full with (n := 999). exact Hfull.
  - rewrite packets_onPacketCaptured, length_firstn. simpl List.length.
    rewrite Hfull. apply Nat.min_l. apply Nat.le_succ_diag_r.
Qed.

(** ** Strings: containment *)

Lemma truthyString_false (s : string) :
  JS.truthyString s = false <-> s = "".
Proof.
  destruct s; simpl; split; intro H; try reflexivity; discriminate H.
Qed.

Lemma startsWith_spec (search : string) :
  forall s, JS.startsWith s search = true <-> exists post, s = search ++ post.
Proof.
  induction search as [|a search IH]; intro s.
  - split; [intros _; exists s; reflexivity | intros _; destruct s; reflexivity].
  - destruct s as [|b s]; simpl.
    + split; [intro H; discriminate H | intros [post H]; discriminate H].
    + rewrite andb_true_iff, N.eqb_eq, IH. split.
      * intros [-> [post ->]]. exists post. reflexivity.
      * intros [post H]. injection H as -> ->. split; [reflexivity|].
        exists post. reflexivity.
Qed.

Lemma includes_nil (search : string) :
  JS.includes "" search = JS.startsWith "" search.
Proof. simpl. apply orb_false_r. Qed.

Lemma includes_cons (c : codeUnit) (s search : string) :
  JS.includes (String c s) search
  = JS.startsWith (String c s) search || JS.includes s search.
Proof. reflexivity. Qed.

Lemma includes_spec (search : string) :
  forall s, JS.includes s search = true <-> Substring search s.
Proof.
  intro s. split.
  - induction s as [|c s IH].
    + rewrite includes_nil, startsWith_spec. intros [post H].
      exists "", post. exact H.
    + rewrite includes_cons, orb_true_iff, startsWith_spec.
      intros [[post H]|H].
      * exists "", post. exact H.
      * destruct (IH H) as (pre & post & ->).
        exists (String c pre), post. reflexivity.
  - intros (pre & post & ->). induction pre as [|c pre IH].
    + assert (H : JS.startsWith (search ++ post) search = true)
        by (apply startsWith_spec; exists post; reflexivity).
      change ("" ++ search ++ post) with (search ++ post).
      destruct (search ++ post) as [|c t].
      * rewrite includes_nil. exact H.
      * rewrite includes_cons, H. reflexivity.
    + change (String c pre ++ search ++ post)
        with (String c (pre ++ search ++ post)).
      rewrite includes_cons, IH. apply orb_true_r.
Qed.

Lemma append_assoc (a b c : string) : (a ++ b) ++ c = a ++ b ++ c.
Proof. induction a as [|x a IH]; simpl; [|rewrite IH]; reflexivity. Qed.

Lemma append_nil_r (s : string) : s ++ "" = s.
Proof. induction s as [|c s IH]; simpl; [|rewrite IH]; reflexivity. Qed.

(** ** Strings: lower-casing of ASCII text *)

Lemma below_in_seq (n : nat) (c : N) :
  (c < N.of_nat n)%N -> In c (map N.of_nat (seq 0 n)).
Proof.
  intro H. apply in_map_iff. exists (N.to_nat c). split.
  - apply N2Nat.id.
  - apply in_seq. lia.
Qed.

Lemma simpleLowercase_ascii (c : N) :
  (c < 128)%N -> Unicode.simpleLowercase c = asciiLower c.
Proof.
  intro H.
  assert (Hall : forallb (fun x => (Unicode.simpleLowercase x =? asciiLower x)%N)
                         (map N.of_nat (seq 0 128)) = true)
    by (vm_compute; reflexivity).
  rewrite forallb_forall in Hall.
  apply N.eqb_eq, Hall, (below_in_seq 128). exact H.
Qed.

Lemma asciiOnly_cons (c : codeUnit) (s : string) :
  asciiOnly (String c s) = true <-> (c < 128)%N /\ asciiOnly s = true.
Proof.
  cbn [asciiOnly]. rewrite andb_true_iff, N.ltb_lt. reflexivity.
Qed.

Lemma asciiOnly_app (a b : string) :
  asciiOnly (a ++ b) = asciiOnly a && asciiOnly b.
Proof.
  induction a as [|c a IH]; [reflexivity|].
  cbn [append asciiOnly]. rewrite IH. apply andb_assoc.
Qed.

Lemma codePoints_plain (c : codeUnit) (s : string) :
  isHighSurrogate c = false -> codePoints (String c s) = c :: codePoints s.
Proof.
  intro H. destruct s as [|d s]; cbn [codePoints]; [reflexivity|].
  rewrite H. reflexivity.
Qed.

Lemma below_not_high (c : N) : (c < 55296)%N -> isHighSurrogate c = false.
Proof.
  intro H. unfold isHighSurrogate.
  destruct (N.leb_spec 55296 c); [lia | reflexivity].
Qed.

Lemma codePoints_ascii (s : string) :
  asciiOnly s = true -> codePoints s = units s.
Proof.
  induction s as [|c s IH]; [reflexivity|].
  intro H. apply asciiOnly_cons in H as [Hc Hs].
  rewrite codePoints_plain by (apply below_not_high; lia).
  cbn [units]. rewrite (IH Hs). reflexivity.
Qed.

Lemma lowerPoints_ascii (s : string) :
  asciiOnly s = true ->
  forall afterCased,
    JS.lowerPoints afterCased (units s) = units (mapUnits asciiLower s).
Proof.
  induction s as [|c s IH]; intros H afterCased; [reflexivity|].
  apply asciiOnly_cons in H as [Hc Hs].
  cbn [units mapUnits JS.lowerPoints]. rewrite (IH Hs).
  unfold JS.lowercaseMapping.
  destruct (N.eqb_spec c 304) as [E|_]; [lia|].
  destruct (N.eqb_spec c 931) as [E|_]; [lia|].
  rewrite (simpleLowercase_ascii Hc). reflexivity.
Qed.

Lemma asciiLower_below (c : N) : (c < 128)%N -> (asciiLower c < 128)%N.
Proof.
  intro H. unfold asciiLower, isUpperLetter.
  destruct (N.leb_spec 65 c), (N.leb_spec c 90); cbn [andb]; lia.
Qed.

Lemma asciiOnly_mapUnits (s : string) :
  asciiOnly s = true -> asciiOnly (mapUnits asciiLower s) = true.
Proof.
  induction s as [|c s IH]; [reflexivity|]. intro H.
  apply asciiOnly_cons in H as [Hc Hs]. cbn [mapUnits].
  apply asciiOnly_cons. split; [apply asciiLower_below, Hc | apply IH, Hs].
Qed.

Lemma ofPoints_ascii (s : string) :
  asciiOnly s = true -> ofPoints (units s) = s.
Proof.
  induction s as [|c s IH]; [reflexivity|]. intro H.
  apply asciiOnly_cons in H as [Hc Hs].
  unfold ofPoints in *. cbn [units flat_map]. unfold unitsOfPoint at 1.
  destruct (N.ltb_spec c 65536) as [_|Hge]; [|lia].
  cbn [List.app ofUnits]. rewrite (IH Hs). reflexivity.
Qed.

(** On ASCII text [toLowerCase] is the letter-by-letter map. *)
Lemma toLowerCase_ascii (s : string) :
  asciiOnly s = true -> JS.toLowerCase s = mapUnits asciiLower s.
Proof.
  intro H. unfold JS.toLowerCase.
  rewrite (codePoints_ascii s H), (lowerPoints_ascii s H).
  apply ofPoints_ascii, asciiOnly_mapUnits, H.
Qed.

Lemma mapUnits_app (f : codeUnit -> codeUnit) (a b : string) :
  mapUnits f (a ++ b) = mapUnits f a ++ mapUnits f b.
Proof. induction a as [|x a IH]; simpl; [|rewrite IH]; reflexivity. Qed.

(** A split of the image of a letter-by-letter map comes from a split of
    its argument. *)
Lemma mapUnits_split (f : codeUnit -> codeUnit) (a : string) :
  forall s b, mapUnits f s = a ++ b ->
    exists s1 s2, s = s1 ++ s2 /\ mapUnits f s1 = a /\ mapUnits f s2 = b.
Proof.
  induction a as [|x a IH]; intros s b H.
  - exists "", s. repeat split. exact H.
  - destruct s as [|c s]; simpl in H; [discriminate H|].
    injection H as Hx H. destruct (IH _ _ H) as (s1 & s2 & -> & H1 & H2).
    exists (String c s1), s2. simpl. rewrite Hx, H1. repeat split. exact H2.
Qed.

Lemma sameLetter_spec (x y : codeUnit) :
  sameLetter x y = true <-> asciiLower x = asciiLower y.
Proof.
  unfold sameLetter, asciiLower, isUpperLetter.
  rewrite !orb_true_iff, !andb_true_iff, !N.eqb_eq, !N.leb_le.
  destruct (N.leb_spec 65 x), (N.leb_spec x 90),
           (N.leb_spec 65 y), (N.leb_spec y 90); cbn [andb]; lia.
Qed.

Lemma EqIgnoringCase_spec (a : string) :
  forall b, EqIgnoringCase a b
            <-> mapUnits asciiLower a = mapUnits asciiLower b.
Proof.
  induction a as [|x a IH]; intros [|y b]; cbn [EqIgnoringCase mapUnits].
  - tauto.
  - split; [contradiction | discriminate].
  - split; [contradiction | discriminate].
  - rewrite sameLetter_spec, IH. split.
    + intros [-> ->]. reflexivity.
    + intro H. injection H as H1 H2. split; assumption.
Qed.

(** For ASCII texts, containment after lower-casing is containment up to
    letter case. *)
Lemma lowercase_containment_ascii (needle hay : string) :
  asciiOnly needle = true -> asciiOnly hay = true ->
  (Substring (JS.toLowerCase needle) (JS.toLowerCase hay)
   <-> SubstringIgnoringCase needle hay).
Proof.
  intros Hn Hh. rewrite (toLowerCase_ascii needle Hn), (toLowerCase_ascii hay Hh).
  split.
  - intros (pre & post & H).
    destruct (mapUnits_split _ _ _ _ H) as (h1 & h23 & -> & _ & H23).
    destruct (mapUnits_split _ _ _ _ H23) as (h2 & h3 & -> & H2 & _).
    exists h1, h2, h3. split; [reflexivity|].
    apply EqIgnoringCase_spec. exact H2.
  - intros (pre & mid & post & -> & Hmid).
    apply EqIgnoringCase_spec in Hmid.
    exists (mapUnits asciiLower pre), (mapUnits asciiLower post).
    rewrite !mapUnits_app, Hmid. reflexivity.
Qed.
(** ** Strings: where the letters of "tcp" come from *)

Lemma units_app (a b : string) : units (a ++ b) = (units a ++ units b)%list.
Proof. induction a as [|x a IH]; simpl; [|rewrite IH]; reflexivity. Qed.

Lemma ofUnits_app (a b : list codeUnit) :
  ofUnits (a ++ b) = ofUnits a ++ ofUnits b.
Proof. induction a as [|x a IH]; simpl; [|rewrite IH]; reflexivity. Qed.

Lemma units_ofUnits (l : list codeUnit) : units (ofUnits l) = l.
Proof. induction l as [|x l IH]; simpl; [|rewrite IH]; reflexivity. Qed.

Lemma ofUnits_units (s : string) : ofUnits (units s) = s.
Proof. induction s as [|x s IH]; simpl; [|rewrite IH]; reflexivity. Qed.

Lemma tcpLetter_cases (cp : N) (u : codeUnit) :
  tcpLetter cp = Some u ->
  (u = 116 /\ (cp = 84 \/ cp = 116) \/
   u = 99 /\ (cp = 67 \/ cp = 99) \/
   u = 112 /\ (cp = 80 \/ cp = 112))%N.
Proof.
  unfold tcpLetter.
  destruct (N.eqb_spec cp 84), (N.eqb_spec cp 116), (N.eqb_spec cp 67),
           (N.eqb_spec cp 99), (N.eqb_spec cp 80), (N.eqb_spec cp 112);
    cbn [orb]; intro H; inversion H; subst; tauto.
Qed.

Lemma isTcpUnit_cases (u : codeUnit) :
  isTcpUnit u = true <-> (u = 116 \/ u = 99 \/ u = 112)%N.
Proof.
  unfold isTcpUnit. rewrite !orb_true_iff, !N.eqb_eq. tauto.
Qed.

(** No code point other than the six letters has a letter of "tcp" as its
    simple lowercase mapping. *)
Lemma simpleLowercase_tcp (cp : N) :
  isTcpUnit (Unicode.simpleLowercase cp) = true ->
  tcpLetter cp = Some (Unicode.simpleLowercase cp).
Proof.
  assert (Htable : forallb keepsTcpApart Unicode.lowercaseRanges = true)
    by (vm_compute; reflexivity).
  rewrite forallb_forall in Htable.
  unfold Unicode.simpleLowercase.
  destruct (find (Unicode.covers cp) Unicode.lowercaseRanges)
    as [[[[lo hi] step] target]|] eqn:Hfind.
  - apply find_some in Hfind as [Hin Hcov].
    specialize (Htable _ Hin). unfold keepsTcpApart in Htable.
    unfold Unicode.covers in Hcov.
    apply andb_true_iff in Hcov as [Hcov _].
    apply andb_true_iff in Hcov as [Hlo Hhi].
    apply N.leb_le in Hlo, Hhi.
    intro Htcp. apply isTcpUnit_cases in Htcp.
    apply orb_true_iff in Htable as [Hascii|Hclear].
    + apply andb_true_iff in Hascii as [Hascii Ht].
      apply andb_true_iff in Hascii as [Hl Hh].
      apply N.eqb_eq in Hl, Hh, Ht. subst lo hi target.
      assert (Hcp : (cp = 84 \/ cp = 67 \/ cp = 80)%N) by lia.
      destruct Hcp as [-> | [-> | ->]]; reflexivity.
    + exfalso. apply negb_true_iff in Hclear.
      apply orb_false_iff in Hclear as [Hclear H112].
      apply orb_false_iff in Hclear as [H116 H99].
      apply andb_false_iff in H116, H99, H112.
      rewrite !N.leb_gt in H116, H99, H112. lia.
  - intro Htcp. apply isTcpUnit_cases in Htcp.
    destruct Htcp as [-> | [-> | ->]]; reflexivity.
Qed.

(** The code units a letter of "tcp" lower-cases to, in any context. *)
Lemma mapping_of_tcp_letter (afterCased : bool) (cp : N) (rest : list N)
    (u : codeUnit) :
  tcpLetter cp = Some u ->
  flat_map unitsOfPoint (JS.lowercaseMapping afterCased cp rest) = [u].
Proof.
  intro H. apply tcpLetter_cases in H.
  destruct H as [[-> [-> | ->]] | [[-> [-> | ->]] | [-> [-> | ->]]]]; reflexivity.
Qed.

Lemma unitsOfPoint_apart (cp : N) :
  isTcpUnit cp = false ->
  exists v vs, unitsOfPoint cp = v :: vs /\
               forallb (fun w => negb (isTcpUnit w)) (v :: vs) = true.
Proof.
  intro H. unfold unitsOfPoint.
  destruct (N.ltb_spec cp 65536) as [Hlt|Hge].
  - exists cp, []. split; [reflexivity|]. cbn [forallb]. rewrite H. reflexivity.
  - eexists _, _. split; [reflexivity|].
    cbn [forallb]. unfold isTcpUnit.
    set (hi := (55296 + (cp - 65536) / 1024)%N).
    set (lo := (56320 + (cp - 65536) mod 1024)%N).
    assert (Hhi : (55296 <= hi)%N) by apply N.le_add_r.
    assert (Hlo : (56320 <= lo)%N) by apply N.le_add_r.
    destruct (N.eqb_spec hi 116), (N.eqb_spec hi 99), (N.eqb_spec hi 112),
             (N.eqb_spec lo 116), (N.eqb_spec lo 99), (N.eqb_spec lo 112);
      try lia; reflexivity.
Qed.

(** Any other code point lower-cases to at least one code unit, none of
    them a letter of "tcp". *)
Lemma mapping_of_other (afterCased : bool) (cp : N) (rest : list N) :
  tcpLetter cp = None ->
  exists v vs,
    flat_map unitsOfPoint (JS.lowercaseMapping afterCased cp rest) = v :: vs
    /\ forallb (fun w => negb (isTcpUnit w)) (v :: vs) = true.
Proof.
  intro H. unfold JS.lowercaseMapping.
  destruct (N.eqb_spec cp 304) as [_|_].
  { exists 105%N, [775%N]. split; reflexivity. }
  destruct (N.eqb_spec cp 931) as [_|_].
  { destruct (afterCased && negb (JS.followedByCased rest)).
    - exists 962%N, []. split; reflexivity.
    - exists 963%N, []. split; reflexivity. }
  cbn [flat_map]. rewrite app_nil_r.
  apply unitsOfPoint_apart.
  destruct (isTcpUnit (Unicode.simpleLowercase cp)) eqn:E; [|reflexivity].
  apply simpleLowercase_tcp in E. congruence.
Qed.

Lemma lowerPoints_cons (afterCased : bool) (cp : N) (rest : list N) :
  flat_map unitsOfPoint (JS.lowerPoints afterCased (cp :: rest))
  = (flat_map unitsOfPoint (JS.lowercaseMapping afterCased cp rest)
     ++ flat_map unitsOfPoint
          (JS.lowerPoints (if Unicode.caseIgnorable cp then afterCased
                           else Unicode.cased cp) rest))%list.
Proof. cbn [JS.lowerPoints]. apply flat_map_app. Qed.

(** A run free of the letters lies wholly before the first letter. *)
Lemma apart_prefix (piece : list codeUnit) :
  forallb (fun w => negb (isTcpUnit w)) piece = true ->
  forall pre t X Y,
    isTcpUnit t = true ->
    (piece ++ X = pre ++ t :: Y)%list ->
    exists pre', pre = (piece ++ pre')%list /\ X = (pre' ++ t :: Y)%list.
Proof.
  induction piece as [|v vs IH]; intros Hp pre t X Y Ht H.
  - exists pre. split; [reflexivity | exact H].
  - cbn [forallb] in Hp. apply andb_true_iff in Hp as [Hv Hvs].
    destruct pre as [|w pre].
    + cbn in H. injection H as Hw _. subst v. rewrite Ht in Hv. discriminate.
    + cbn in H. injection H as Hw H. subst w.
      destruct (IH Hvs pre t X Y Ht H) as (pre' & -> & ->).
      exists pre'. split; reflexivity.
Qed.

(** A lower-cased text that starts with a letter of "tcp" comes from a
    text that starts with that letter. *)
Lemma lowerPoints_head (cps : list N) (afterCased : bool)
    (u : codeUnit) (more : list codeUnit) :
  isTcpUnit u = true ->
  flat_map unitsOfPoint (JS.lowerPoints afterCased cps) = u :: more ->
  exists cp rest afterCased',
    cps = cp :: rest /\ tcpLetter cp = Some u /\
    more = flat_map unitsOfPoint (JS.lowerPoints afterCased' rest).
Proof.
  intros Hu H. destruct cps as [|cp rest]; [discriminate H|].
  rewrite lowerPoints_cons in H.
  destruct (tcpLetter cp) as [w|] eqn:Hcp.
  - rewrite (@mapping_of_tcp_letter afterCased cp rest _ Hcp) in H.
    cbn [List.app] in H. injection H as -> H.
    eexists cp, rest, _. split; [reflexivity|].
    split; [exact Hcp | symmetry; exact H].
  - destruct (@mapping_of_other afterCased cp rest Hcp) as (v & vs & Hm & Hap).
    rewrite Hm in H. cbn [List.app] in H. injection H as -> _.
    cbn [forallb] in Hap. rewrite Hu in Hap. discriminate.
Qed.

Lemma lowerPoints_tcp_inv (cps : list N) :
  forall afterCased pre post,
    flat_map unitsOfPoint (JS.lowerPoints afterCased cps)
    = (pre ++ 116 :: 99 :: 112 :: post)%list%N ->
    exists a x y z b,
      cps = (a ++ x :: y :: z :: b)%list /\
      tcpLetter x = Some 116%N /\ tcpLetter y = Some 99%N /\
      tcpLetter z = Some 112%N.
Proof.
  induction cps as [|cp rest IH]; intros afterCased pre post H.
  - destruct pre; discriminate H.
  - destruct pre as [|w pre].
    + cbn [List.app] in H.
      destruct (@lowerPoints_head _ _ 116%N _ eq_refl H)
        as (x & r1 & s1 & Hx & Htx & H1).
      injection Hx as <- <-. symmetry in H1.
      destruct (@lowerPoints_head _ _ 99%N _ eq_refl H1)
        as (y & r2 & s2 & -> & Hty & H2).
      symmetry in H2.
      destruct (@lowerPoints_head _ _ 112%N _ eq_refl H2)
        as (z & r3 & s3 & -> & Htz & _).
      exists [], cp, y, z, r3. repeat split; assumption.
    + rewrite lowerPoints_cons in H.
      assert (Hrest : exists st' pre',
                flat_map unitsOfPoint (JS.lowerPoints st' rest)
                = (pre' ++ 116 :: 99 :: 112 :: post)%list%N).
      { destruct (tcpLetter cp) as [u|] eqn:Hcp.
        - rewrite (@mapping_of_tcp_letter afterCased cp rest _ Hcp) in H.
          cbn [List.app] in H. injection H as _ H. eexists _, pre. exact H.
        - destruct (@mapping_of_other afterCased cp rest Hcp)
            as (v & vs & Hm & Hap).
          rewrite Hm in H.
          destruct (@apart_prefix _ Hap (w :: pre) 116%N _ _ eq_refl H)
            as (pre' & _ & Hrest).
          eexists _, pre'. exact Hrest. }
      destruct Hrest as (st' & pre' & Hrest).
      destruct (IH _ _ _ Hrest) as (a & x & y & z & b & -> & Hx & Hy & Hz).
      exists (cp :: a), x, y, z, b. repeat split; assumption.
Qed.

Lemma lowerPoints_tcp_intro (a : list N) :
  forall afterCased x y z b,
    tcpLetter x = Some 116%N -> tcpLetter y = Some 99%N ->
    tcpLetter z = Some 112%N ->
    exists pre post,
      flat_map unitsOfPoint
        (JS.lowerPoints afterCased (a ++ x :: y :: z :: b))
      = (pre ++ 116 :: 99 :: 112 :: post)%list%N.
Proof.
  induction a as [|cp a IH]; intros afterCased x y z b Hx Hy Hz.
  - cbn [List.app]. rewrite !lowerPoints_cons.
    rewrite (@mapping_of_tcp_letter _ _ _ _ Hx), (@mapping_of_tcp_letter _ _ _ _ Hy),
            (@mapping_of_tcp_letter _ _ _ _ Hz).
    eexists [], _. reflexivity.
  - cbn [List.app]. rewrite lowerPoints_cons.
    destruct (IH (if Unicode.caseIgnorable cp then afterCased
                  else Unicode.cased cp) x y z b Hx Hy Hz)
      as (pre & post & ->).
    eexists (_ ++ pre)%list, post. rewrite <- app_assoc. reflexivity.
Qed.

Lemma codePoints_pair (c d : codeUnit) (s : string) :
  codePoints (String c (String d s))
  = if isHighSurrogate c && isLowSurrogate d
    then (65536 + (c - 55296) * 1024 + (d - 56320))%N :: codePoints s
    else c :: codePoints (String d s).
Proof. reflexivity. Qed.

(** Decoding: a code unit below the surrogates is a code point of its
    own, wherever it stands. *)
Lemma codePoints_head (s : string) (y : N) (more : list N) :
  (y < 55296)%N -> codePoints s = y :: more ->
  exists s', s = String y s' /\ more = codePoints s'.
Proof.
  intros Hy H. destruct s as [|c [|d s2]].
  - discriminate H.
  - cbn in H. injection H as -> <-. exists "". split; reflexivity.
  - rewrite codePoints_pair in H.
    destruct (isHighSurrogate c && isLowSurrogate d).
    + assert (Hc : (65536 + (c - 55296) * 1024 + (d - 56320))%N = y)
        by congruence.
      lia.
    + assert (Hc : c = y) by congruence.
      assert (Hm : more = codePoints (String d s2)) by congruence.
      exists (String d s2). rewrite Hc. split; [reflexivity | exact Hm].
Qed.

Lemma codePoints_tcp_inv (n : nat) :
  forall s a x y z b,
    List.length (units s) <= n ->
    codePoints s = (a ++ x :: y :: z :: b)%list ->
    (x < 128)%N -> (y < 128)%N -> (z < 128)%N ->
    exists pre post, s = pre ++ String x (String y (String z post)).
Proof.
  induction n as [|n IH]; intros s a x y z b Hlen H Hx Hy Hz.
  - destruct s; [|cbn in Hlen; lia]. destruct a; discriminate H.
  - destruct s as [|c s1]; [destruct a; discriminate H|].
    cbn [units List.length] in Hlen.
    assert (Hplain : codePoints (String c s1) = c :: codePoints s1 ->
                     exists pre post,
                       String c s1
                       = pre ++ String x (String y (String z post))).
    { intro Hc. rewrite Hc in H. destruct a as [|c' a].
      - cbn [List.app] in H. injection H as -> H.
        destruct (@codePoints_head s1 y _ ltac:(lia) H) as (s2 & -> & H2).
        symmetry in H2.
        destruct (@codePoints_head s2 z _ ltac:(lia) H2) as (s3 & -> & _).
        exists "", s3. reflexivity.
      - cbn [List.app] in H. injection H as _ H.
        destruct (IH s1 a x y z b ltac:(lia) H Hx Hy Hz) as (pre & post & ->).
        exists (String c pre), post. reflexivity. }
    destruct s1 as [|d s2]; [apply Hplain; reflexivity|].
    destruct (isHighSurrogate c && isLowSurrogate d) eqn:Hpair.
    + rewrite codePoints_pair, Hpair in H.
      destruct a as [|c' a].
      * cbn [List.app] in H.
        assert (Hc : (65536 + (c - 55296) * 1024 + (d - 56320))%N = x)
          by congruence.
        lia.
      * cbn [List.app] in H.
        assert (H' : codePoints s2 = (a ++ x :: y :: z :: b)%list)
          by congruence.
        clear H. rename H' into H.
        cbn [units List.length] in Hlen.
        destruct (IH s2 a x y z b ltac:(lia) H Hx Hy Hz) as (pre & post & ->).
        exists (String c (String d pre)), post. reflexivity.
    + apply Hplain. rewrite codePoints_pair, Hpair. reflexivity.
Qed.

Lemma codePoints_app (n : nat) :
  forall pre x rest,
    List.length (units pre) <= n ->
    isLowSurrogate x = false ->
    codePoints (pre ++ String x rest)
    = (codePoints pre ++ codePoints (String x rest))%list.
Proof.
  induction n as [|n IH]; intros pre x rest Hlen Hx.
  - destruct pre; [reflexivity | cbn in Hlen; lia].
  - destruct pre as [|c [|d pre2]]; [reflexivity| |].
    + change (String c "" ++ String x rest) with (String c (String x rest)).
      rewrite codePoints_pair, Hx, andb_false_r. reflexivity.
    + cbn [units List.length] in Hlen.
      change ((String c (String d pre2)) ++ String x rest)
        with (String c (String d (pre2 ++ String x rest))).
      rewrite (codePoints_pair c d (pre2 ++ String x rest)),
              (codePoints_pair c d pre2).
      destruct (isHighSurrogate c && isLowSurrogate d).
      * rewrite (IH pre2 x rest ltac:(lia) Hx). reflexivity.
      * change (String d (pre2 ++ String x rest))
          with (String d pre2 ++ String x rest).
        rewrite (IH (String d pre2) x rest
                    ltac:(cbn [units List.length]; lia) Hx).
        reflexivity.
Qed.

Lemma below_not_low (c : N) : (c < 56320)%N -> isLowSurrogate c = false.
Proof.
  intro H. unfold isLowSurrogate.
  destruct (N.leb_spec 56320 c); [lia | reflexivity].
Qed.

(** The lower-cased text contains "tcp" exactly when the text contains
    the three letters in a row, each in either case. *)
Lemma toLowerCase_contains_tcp (s : string) :
  Substring "tcp" (JS.toLowerCase s) <-> ContainsTcp s.
Proof.
  unfold JS.toLowerCase, ofPoints. split.
  - intros (pre & post & H).
    apply (f_equal units) in H.
    rewrite units_ofUnits, !units_app in H.
    change (units "tcp") with [116; 99; 112]%N in H.
    destruct (@lowerPoints_tcp_inv _ _ _ _ H)
      as (a & x & y & z & b & Hcps & Hx & Hy & Hz).
    apply tcpLetter_cases in Hx, Hy, Hz.
    destruct (@codePoints_tcp_inv (List.length (units s)) s a x y z b
                (Nat.le_refl _) Hcps ltac:(lia) ltac:(lia) ltac:(lia))
      as (pre' & post' & ->).
    exists pre', x, y, z, post'. split; [reflexivity|]. lia.
  - intros (pre & x & y & z & post & -> & Hx & Hy & Hz).
    rewrite (@codePoints_app (List.length (units pre)) pre x _ (Nat.le_refl _))
      by (apply below_not_low; lia).
    rewrite !codePoints_plain by (apply below_not_high; lia).
    assert (Htx : tcpLetter x = Some 116%N)
      by (destruct Hx as [-> | ->]; reflexivity).
    assert (Hty : tcpLetter y = Some 99%N)
      by (destruct Hy as [-> | ->]; reflexivity).
    assert (Htz : tcpLetter z = Some 112%N)
      by (destruct Hz as [-> | ->]; reflexivity).
    destruct (@lowerPoints_tcp_intro (codePoints pre) false x y z
                (codePoints post) Htx Hty Htz) as (p & q & Hpq).
    exists (ofUnits p), (ofUnits q).
    transitivity (ofUnits (p ++ 116 :: 99 :: 112 :: q)%list%N).
    + f_equal. exact Hpq.
    + rewrite ofUnits_app. reflexivity.
Qed.
(** ** The filter *)

Lemma clause_spec (flt : string) (test : bool) (P : Prop) :
  (test = true <-> P) ->
  (negb (JS.truthyString flt) || test = true <-> flt = "" \/ P).
Proof.
  intro H. rewrite orb_true_iff, negb_true_iff, truthyString_false, H.
  reflexivity.
Qed.

Lemma matchesFilters_spec (f : Filters.t) (p : PacketInfo.t) :
  matchesFilters f p = true <-> Matches f p.
Proof.
  unfold matchesFilters, Matches, ProtocolMatches, SourceMatches,
    DestinationMatches.
  rewrite !andb_true_iff.
  rewrite !(clause_spec _ (includes_spec _ _)).
  tauto.
Qed.

Section Selection.
Variable A : Type.
Variable P : A -> Prop.

Lemma Selection_filter (test : A -> bool) :
  (forall x, test x = true <-> P x) ->
  forall l, Selection P l (filter test l).
Proof.
  intros Htest l. induction l as [|x l IH]; simpl.
  - constructor.
  - destruct (test x) eqn:E.
    + apply Selection_keep; [apply Htest; exact E | exact IH].
    + apply Selection_drop; [|exact IH].
      intro HP. apply Htest in HP. congruence.
Qed.

Lemma Selection_In (l r : list A) :
  Selection P l r -> forall x, In x r <-> In x l /\ P x.
Proof.
  induction 1 as [|y l r Hy _ IH|y l r Hy _ IH]; intro x; simpl.
  - tauto.
  - rewrite IH. split.
    + intros [->|[H1 H2]]; auto.
    + intros [[->|H1] H2]; auto.
  - rewrite IH. split.
    + intros [H1 H2]; auto.
    + intros [[->|H1] H2]; [contradiction | auto].
Qed.

(** A selection is determined by the list and the predicate. *)
Lemma Selection_unique (l r1 r2 : list A) :
  Selection P l r1 -> Selection P l r2 -> r1 = r2.
Proof.
  intro H1. revert r2.
  induction H1 as [|y l r Hy _ IH|y l r Hy _ IH]; intros r2 H2;
    inversion H2; subst; try contradiction; try reflexivity.
  - f_equal. apply IH. assumption.
  - apply IH. assumption.
Qed.

Lemma Selection_length (l r : list A) :
  Selection P l r -> List.length r <= List.length l.
Proof. induction 1; simpl; lia. Qed.

End Selection.

(** C2, as amended.  The filtered view is the packet list with exactly
    the records that satisfy all three sub-predicates kept, each in its
    original position relative to the others.  An empty sub-predicate is
    satisfied by every record; the two address tests are exact containment;
    the protocol test asks that the lower-cased filter text occur in the
    lower-cased protocol.  For ASCII protocol and filter text this is
    containment up to letter case.  The view is a function of the state
    alone and yields no state: the packet list it reads stays as it was. *)
Theorem filteredPackets_spec (st : State) :
  Selection (Matches (filters st)) (packets st) (filteredPackets st) /\
  (forall p, In p (filteredPackets st) <->
             In p (packets st) /\ Matches (filters st) p) /\
  (forall view, Selection (Matches (filters st)) (packets st) view ->
                view = filteredPackets st) /\
  (forall p,
     asciiOnly (Filters.protocol (filters st)) = true ->
     asciiOnly (PacketInfo.protocol p) = true ->
     (ProtocolMatches (filters st) p <->
      Filters.protocol (filters st) = "" \/
      SubstringIgnoringCase (Filters.protocol (filters st))
                            (PacketInfo.protocol p))).
Proof.
  assert (Hsel : Selection (Matches (filters st)) (packets st)
                           (filteredPackets st)).
  { apply Selection_filter. intro p. apply matchesFilters_spec. }
  split; [exact Hsel|]. split; [|split].
  - apply Selection_In. exact Hsel.
  - intros view Hview. exact (Selection_unique Hview Hsel).
  - intros p Hf Hp. unfold ProtocolMatches.
    rewrite (lowercase_containment_ascii _ _ Hf Hp). reflexivity.
Qed.

Lemma filteredPackets_spec_witness :
  asciiOnly (Filters.protocol (filters mixedCaseState)) = true /\
  asciiOnly (PacketInfo.protocol tcpPacket) = true /\
  filteredPackets mixedCaseState = [tcpPacket] /\
  SubstringIgnoringCase "tCp" "TCP".
Proof.
  destruct (filteredPackets_spec mixedCaseState) as (_ & Hin & _ & Hascii).
  split; [reflexivity|]. split; [reflexivity|]. split; [reflexivity|].
  assert (Hshown : In tcpPacket (filteredPackets mixedCaseState))
    by (left; reflexivity).
  destruct (proj1 (Hin tcpPacket) Hshown) as (_ & Hprotocol & _).
  destruct (proj1 (Hascii tcpPacket eq_refl eq_refl) Hprotocol) as [H|H].
  - discriminate H.
  - exact H.
Defined.

(** C2, as first stated, does not hold.  Whatever equality ignoring case
    is taken to be, as long as a text equals itself, the protocol test is
    not containment up to case: the label made of a capital alpha and a
    capital sigma contains the filter text made of a capital sigma, yet
    the record is filtered out, because the sigma of the label lower-cases
    to a final sigma and the sigma of the filter does not. *)
Lemma protocol_test_is_not_caseless_containment :
  ~ exists E : string -> string -> Prop,
      (forall s, E s s) /\
      forall st p,
        In p (filteredPackets st) <->
        In p (packets st) /\ MatchesIgnoringCase E (filters st) p.
Proof.
  intros (E & Hrefl & Hclaim).
  assert (Hin : In sigmaPacket (filteredPackets sigmaState)).
  { apply Hclaim. split; [left; reflexivity|].
    split; [|split; left; reflexivity].
    right. exists "Α", "Σ", "". split; [reflexivity | apply Hrefl]. }
  assert (Hview : filteredPackets sigmaState = [])
    by (vm_compute; reflexivity).
  rewrite Hview in Hin. exact Hin.
Qed.

Lemma filter_all (A : Type) (test : A -> bool) (l : list A) :
  (forall x, test x = true) -> filter test l = l.
Proof.
  intro H. induction l as [|x l IH]; simpl; [|rewrite H, IH]; reflexivity.
Qed.

(** C5. With the three sub-predicates empty the filter returns its input
    unchanged; with the protocol sub-predicate "tcp" (the other two empty)
    it keeps exactly the records whose lower-cased protocol contains
    "tcp", which are exactly the records whose protocol contains the
    letters t, c, p in a row, each in upper or lower case. *)
Theorem applyFilters_identity_and_tcp (records : list PacketInfo.t) :
  applyFilters (Filters.Build "" "" "") records = records /\
  Selection (fun p => Substring "tcp" (JS.toLowerCase (PacketInfo.protocol p)))
            records
            (applyFilters (Filters.Build "tcp" "" "") records) /\
  Selection (fun p => ContainsTcp (PacketInfo.protocol p))
            records
            (applyFilters (Filters.Build "tcp" "" "") records) /\
  (forall p, In p (applyFilters (Filters.Build "tcp" "" "") records) <->
             In p records /\ ContainsTcp (PacketInfo.protocol p)).
Proof.
  assert (Hlow : forall p,
            matchesFilters (Filters.Build "tcp" "" "") p = true
            <-> Substring "tcp" (JS.toLowerCase (PacketInfo.protocol p))).
  { intro p. unfold matchesFilters.
    cbn [Filters.protocol Filters.source Filters.destination
         JS.truthyString negb orb].
    rewrite !andb_true_r.
    change (JS.toLowerCase "tcp") with "tcp".
    apply (includes_spec "tcp"). }
  assert (Hsel :
    Selection (fun p => ContainsTcp (PacketInfo.protocol p))
              records (applyFilters (Filters.Build "tcp" "" "") records)).
  { apply Selection_filter. intro p.
    rewrite Hlow. apply toLowerCase_contains_tcp. }
  split; [|split; [|split]].
  - apply filter_all. intro p. reflexivity.
  - apply Selection_filter. exact Hlow.
  - exact Hsel.
  - apply Selection_In. exact Hsel.
Qed.

Lemma packet_window_witness :
  packets initialState = [] /\
  List.length (packets fullState) = CAPACITY /\
  List.length (packets (afterPackets overflowingRun initialState))
    = Nat.min 1001 1000 /\
  List.length (packets (onPacketCaptured oldPacket fullState)) = 1000.
Proof.
  split; [reflexivity|]. split; [reflexivity|].
  destruct (packet_window overflowingRun initialState fullState oldPacket
              eq_refl eq_refl) as (Hlen & _ & _ & _ & Hfull).
  split; [exact Hlen | exact Hfull].
Defined.

(** ** Table cells *)

(** C10. A port equal to 0 is falsy, so the address cell carries no
    [":port"] suffix: a record with port 0 renders exactly as the same
    record with the port absent, namely as the bare address.  This holds
    for the source cell and for the destination cell. *)
Theorem zero_port_renders_as_absent (p : PacketInfo.t) :
  sourceCell (PacketInfo.with_source_port (Some 0%Z) p)
    = sourceCell (PacketInfo.with_source_port None p) /\
  sourceCell (PacketInfo.with_source_port (Some 0%Z) p)
    = PacketInfo.source p /\
  destinationCell (PacketInfo.with_dest_port (Some 0%Z) p)
    = destinationCell (PacketInfo.with_dest_port None p) /\
  destinationCell (PacketInfo.with_dest_port (Some 0%Z) p)
    = PacketInfo.destination p.
Proof.
  unfold sourceCell, destinationCell. simpl.
  rewrite !append_nil_r. repeat split.
Qed.

(** A port that is present and not 0 does get its suffix. *)
Lemma nonzero_port_suffix (n : Z) :
  n <> 0%Z -> portSuffix (Some n) = ":" ++ JS.numberToString n.
Proof.
  intro Hn. unfold portSuffix, JS.truthyNumber.
  destruct (Z.eqb_spec n 0) as [E|_]; [contradiction | reflexivity].
Qed.

(** ** Numbers: rounding to binary64 *)

Lemma two53_below_overflow : (JS.two53 < JS.overflow)%Z.
Proof. vm_compute. reflexivity. Qed.

Lemma roundMagnitude_exact (a : Z) :
  (a < JS.two53)%Z -> JS.roundMagnitude a = a.
Proof.
  intro H. unfold JS.roundMagnitude.
  destruct (Z.ltb_spec a JS.two53); [reflexivity | lia].
Qed.

(** Rounding never takes a magnitude of 2^53 or more below 2^53. *)
Lemma roundMagnitude_large (a : Z) :
  (JS.two53 <= a)%Z -> (JS.two53 <= JS.roundMagnitude a)%Z.
Proof.
  intro H. unfold JS.roundMagnitude.
  destruct (Z.ltb_spec a JS.two53) as [Hlt|_]; [lia|].
  unfold JS.two53 in *.
  assert (Hlog : (53 <= Z.log2 a)%Z).
  { change 53%Z with (Z.log2 9007199254740992).
    apply Z.log2_le_mono. exact H. }
  set (e := (Z.log2 a - 52)%Z).
  assert (He : (1 <= e)%Z) by (unfold e; lia).
  assert (Hpow : (2 <= 2 ^ e)%Z).
  { change 2%Z with (2 ^ 1)%Z at 1. apply Z.pow_le_mono_r; lia. }
  assert (Hsplit : (2 ^ Z.log2 a = 4503599627370496 * 2 ^ e)%Z).
  { replace (Z.log2 a) with (52 + e)%Z by (unfold e; lia).
    rewrite Z.pow_add_r by lia. reflexivity. }
  assert (Hspec : (2 ^ Z.log2 a <= a)%Z) by (apply Z.log2_spec; lia).
  assert (Hq : (4503599627370496 <= a / 2 ^ e)%Z).
  { apply Z.div_le_lower_bound; lia. }
  set (q := (a / 2 ^ e)%Z) in *.
  generalize (2 ^ (e - 1))%Z (a mod 2 ^ e)%Z. intros half r.
  assert (Hq' : (q <= (if (r <? half)%Z then q
                       else if (half <? r)%Z then q + 1
                            else if Z.even q then q else q + 1))%Z)
    by (destruct (r <? half)%Z, (half <? r)%Z, (Z.even q); lia).
  nia.
Qed.

Lemma numberValue_exact (z : Z) :
  (Z.abs z < JS.two53)%Z -> JS.numberValue z = JS.Finite z.
Proof.
  intro H. unfold JS.numberValue. rewrite (@roundMagnitude_exact _ H).
  assert (Hov := two53_below_overflow).
  destruct (Z.ltb_spec (Z.abs z) JS.overflow); [|lia].
  f_equal. lia.
Qed.

(** A magnitude of 2^53 or more stays at least that large, or overflows. *)
Lemma numberValue_large (z : Z) :
  (JS.two53 <= Z.abs z)%Z ->
  (exists v, JS.numberValue z = JS.Finite v /\ (JS.two53 <= Z.abs v)%Z)
  \/ (exists negative, JS.numberValue z = JS.Infinity negative).
Proof.
  intro H. unfold JS.numberValue.
  assert (Hm := roundMagnitude_large H).
  destruct (JS.roundMagnitude (Z.abs z) <? JS.overflow)%Z.
  - left. eexists. split; [reflexivity|].
    unfold JS.two53 in *. nia.
  - right. eexists. reflexivity.
Qed.

(** Within the range of dates the product by 1000 is exact. *)
Lemma newDate_times_within (n : Z) :
  (Z.abs (n * 1000) <= JS.maxTime)%Z ->
  JS.times 1000 (JS.numberValue n) = JS.Finite (n * 1000) /\
  JS.newDate (JS.times 1000 (JS.numberValue n)) = Some (n * 1000)%Z.
Proof.
  unfold JS.maxTime. intro H.
  rewrite numberValue_exact by (unfold JS.two53; lia).
  cbn [JS.times].
  rewrite numberValue_exact by (unfold JS.two53; lia).
  split; [reflexivity|]. cbn [JS.newDate]. unfold JS.maxTime.
  destruct (Z.leb_spec (Z.abs (n * 1000)) 8640000000000000);
    [reflexivity | lia].
Qed.

Lemma newDate_large (x : JS.Number) :
  (forall v, x = JS.Finite v -> (JS.maxTime < Z.abs v)%Z) ->
  JS.newDate x = None.
Proof.
  intro H. destruct x as [| |v]; try reflexivity.
  cbn [JS.newDate]. specialize (H v eq_refl).
  destruct (Z.leb_spec (Z.abs v) JS.maxTime); [lia | reflexivity].
Qed.

(** Beyond the range of dates no rounding brings the product back. *)
Lemma newDate_times_beyond (n : Z) :
  (JS.maxTime < Z.abs (n * 1000))%Z ->
  JS.newDate (JS.times 1000 (JS.numberValue n)) = None.
Proof.
  intro H. apply newDate_large. intros v Hv.
  assert (Hbig : forall z w, (JS.maxTime < Z.abs z)%Z ->
                             JS.numberValue z = JS.Finite w ->
                             (JS.maxTime < Z.abs w)%Z).
  { intros z w Hz Hw.
    destruct (Z.lt_ge_cases (Z.abs z) JS.two53) as [Hs|Hl].
    - rewrite (@numberValue_exact _ Hs) in Hw. injection Hw as <-. exact Hz.
    - destruct (@numberValue_large _ Hl) as [(u & Hu & Hbound)|(b & Hb)];
        rewrite Hw in *; [|discriminate Hb].
      injection Hu as <-. unfold JS.maxTime, JS.two53 in *. lia. }
  destruct (JS.numberValue n) as [| |m] eqn:Hn; try discriminate Hv.
  cbn [JS.times] in Hv.
  apply (Hbig (m * 1000)%Z v); [|exact Hv].
  destruct (Z.lt_ge_cases (Z.abs n) JS.two53) as [Hs|Hl].
  - rewrite (@numberValue_exact _ Hs) in Hn. injection Hn as <-. exact H.
  - destruct (@numberValue_large _ Hl) as [(u & Hu & Hbound)|(b & Hb)];
      rewrite Hn in *; [|discriminate Hb].
    injection Hu as <-. unfold JS.maxTime, JS.two53 in *. lia.
Qed.

(** ** The time cell *)

Lemma radixDigits_decimal (d : uint) (rest : string) :
  JS.radixDigits 10 (JS.digitsString d ++ rest)
  = (uintDigits d ++ JS.radixDigits 10 rest)%list.
Proof.
  induction d as [|d IH|d IH|d IH|d IH|d IH|d IH|d IH|d IH|d IH|d IH];
    [reflexivity|..];
    cbn [JS.digitsString append uintDigits List.app];
    rewrite <- IH; reflexivity.
Qed.

Lemma radixDigits_end (c : codeUnit) (rest : string) :
  endsNumber c = true -> JS.radixDigits 10 (String c rest) = [].
Proof.
  unfold endsNumber. cbn [JS.radixDigits].
  destruct (JS.digitValue c) as [d|]; [|reflexivity].
  intro H. apply andb_true_iff in H as [H _].
  apply N.leb_le in H.
  destruct (N.ltb_spec d 10); [lia | reflexivity].
Qed.

Lemma radixDigits_tail (rest : string) :
  NumberEnd rest -> JS.radixDigits 10 rest = [].
Proof.
  intros [|c rest' Hc]; [reflexivity | apply radixDigits_end, Hc].
Qed.

Lemma fold_uintDigits (d : uint) :
  forall acc,
    fold_left (fun a x => (a * 10 + x)%N) (uintDigits d) acc
    = (acc * 10 ^ DecimalPos.Unsigned.usize d
       + DecimalPos.Unsigned.of_lu (Decimal.rev d))%N.
Proof.
  induction d as [|d IH|d IH|d IH|d IH|d IH|d IH|d IH|d IH|d IH|d IH];
    intro acc;
    [simpl; lia|..];
    cbn [uintDigits fold_left DecimalPos.Unsigned.usize];
    unfold Decimal.rev at 1; cbn [Decimal.revapp];
    rewrite (DecimalPos.Unsigned.of_lu_revapp d);
    cbn [DecimalPos.Unsigned.of_lu];
    rewrite IH, N.pow_succ_r'; ring.
Qed.

Lemma mathInt_uintDigits (d : uint) :
  JS.mathInt 10 (uintDigits d) = N.of_uint d.
Proof.
  unfold JS.mathInt. rewrite fold_uintDigits.
  unfold N.of_uint. rewrite DecimalPos.Unsigned.of_uint_alt. lia.
Qed.

Lemma endsNumber_not_x (c : codeUnit) :
  endsNumber c = true -> ((c =? 120) || (c =? 88))%N = false.
Proof.
  intro H.
  destruct (N.eqb_spec c 120) as [->|_]; [discriminate H|].
  destruct (N.eqb_spec c 88) as [->|_]; [discriminate H|].
  reflexivity.
Qed.

Lemma readRadix_zero_end (rest : string) :
  NumberEnd rest ->
  JS.readRadix (String 48 rest) = (10%N, String 48 rest).
Proof.
  intros [|c rest' Hc]; [reflexivity|].
  cbn [JS.readRadix N.eqb Pos.eqb]. rewrite (endsNumber_not_x c Hc).
  reflexivity.
Qed.

(** A decimal numeral starts with a digit: no white space to skip, no
    sign, and no hexadecimal prefix, even when other text follows "0". *)
Lemma decimal_head (d : uint) (rest : string) :
  d <> Nil -> NumberEnd rest ->
  let s := JS.digitsString d ++ rest in
  JS.trimStart s = s /\ JS.readSign s = (1%Z, s) /\
  JS.readRadix s = (10%N, s) /\ uintDigits d <> [].
Proof.
  intros Hd Hrest.
  destruct d as [|d|d|d|d|d|d|d|d|d|d]; [contradiction|..];
    try (repeat split; discriminate).
  destruct d; try (repeat split; discriminate).
  cbn [JS.digitsString append].
  repeat split; try discriminate.
  apply readRadix_zero_end. exact Hrest.
Qed.

Lemma parseInt_digits (sign : Z) (d : uint) (rest : string) :
  d <> Nil -> NumberEnd rest ->
  (let '(R, S2) := JS.readRadix (JS.digitsString d ++ rest) in
   match JS.radixDigits R S2 with
   | [] => JS.NaN
   | ds => JS.numberValue (sign * Z.of_N (JS.mathInt R ds))
   end) = JS.numberValue (sign * Z.of_N (N.of_uint d)).
Proof.
  intros Hd Hrest.
  destruct (@decimal_head d rest Hd Hrest) as (_ & _ & Hradix & Hne).
  rewrite Hradix.
  rewrite radixDigits_decimal, (radixDigits_tail Hrest), app_nil_r.
  rewrite <- mathInt_uintDigits.
  destruct (uintDigits d) as [|x ds]; [contradiction | reflexivity].
Qed.

Lemma parseInt_unsigned (d : uint) (rest : string) :
  d <> Nil -> NumberEnd rest ->
  JS.parseInt (JS.digitsString d ++ rest)
  = JS.numberValue (Z.of_N (N.of_uint d)).
Proof.
  intros Hd Hrest.
  destruct (@decimal_head d rest Hd Hrest) as (Htrim & Hsign & Hradix & _).
  unfold JS.parseInt. rewrite Htrim, Hsign.
  assert (H := @parseInt_digits 1 d rest Hd Hrest).
  rewrite Hradix in *.
  destruct (JS.radixDigits 10 (JS.digitsString d ++ rest)) as [|x ds];
    rewrite ?Z.mul_1_l in *; exact H.
Qed.

Lemma parseInt_negative (d : uint) (rest : string) :
  d <> Nil -> NumberEnd rest ->
  JS.parseInt (String 45 (JS.digitsString d ++ rest))
  = JS.numberValue (- Z.of_N (N.of_uint d)).
Proof.
  intros Hd Hrest.
  assert (H := @parseInt_digits (-1) d rest Hd Hrest).
  unfold JS.parseInt.
  change (JS.trimStart (String 45 (JS.digitsString d ++ rest)))
    with (String 45 (JS.digitsString d ++ rest)).
  change (JS.readSign (String 45 (JS.digitsString d ++ rest)))
    with ((-1)%Z, JS.digitsString d ++ rest).
  cbv beta iota.
  replace (- Z.of_N (N.of_uint d))%Z with (-1 * Z.of_N (N.of_uint d))%Z
    by lia.
  exact H.
Qed.

Lemma trimStart_whiteSpace (space s : string) :
  whiteSpaceOnly space = true ->
  JS.trimStart (space ++ s) = JS.trimStart s.
Proof.
  induction space as [|c space IH]; [reflexivity|].
  cbn [whiteSpaceOnly append JS.trimStart]. intro H.
  apply andb_true_iff in H as [Hc Hs]. rewrite Hc. apply IH, Hs.
Qed.

Lemma parseInt_whiteSpace (space s : string) :
  whiteSpaceOnly space = true ->
  JS.parseInt (space ++ s) = JS.parseInt s.
Proof.
  intro H. unfold JS.parseInt.
  rewrite (@trimStart_whiteSpace space s H). reflexivity.
Qed.

(** Parsing the decimal numeral of an integer, after any white space and
    before a fraction or other text, gives the Number value of that
    integer. *)
Lemma parseInt_decimal (space : string) (z : Z) (rest : string) :
  whiteSpaceOnly space = true -> NumberEnd rest ->
  JS.parseInt (space ++ decimal z ++ rest) = JS.numberValue z.
Proof.
  intros Hspace Hrest. rewrite (@parseInt_whiteSpace space _ Hspace).
  destruct z as [|p|p].
  - change (decimal 0 ++ rest) with (JS.digitsString (D0 Nil) ++ rest).
    rewrite parseInt_unsigned by (discriminate || exact Hrest).
    reflexivity.
  - cbn [decimal].
    rewrite parseInt_unsigned
      by (apply DecimalPos.Unsigned.to_uint_nonnil || exact Hrest).
    change (N.of_uint (Pos.to_uint p)) with (N.of_uint (N.to_uint (Npos p))).
    rewrite DecimalN.Unsigned.of_to. reflexivity.
  - change (decimal (Zneg p) ++ rest)
      with (String 45 (JS.digitsString (Pos.to_uint p) ++ rest)).
    rewrite parseInt_negative
      by (apply DecimalPos.Unsigned.to_uint_nonnil || exact Hrest).
    change (N.of_uint (Pos.to_uint p)) with (N.of_uint (N.to_uint (Npos p))).
    rewrite DecimalN.Unsigned.of_to. reflexivity.
Qed.

Lemma parseInt_decimal_alone (z : Z) :
  JS.parseInt (decimal z) = JS.numberValue z.
Proof.
  rewrite <- (append_nil_r (decimal z)).
  exact (@parseInt_decimal "" z "" eq_refl EndOfText).
Qed.

(** C8. The time cell formats the date whose time value is
    [parseInt(timestamp) * 1000]: the timestamp is read as a whole number
    of seconds and scaled to milliseconds.  Take a timestamp made of white
    space, the decimal numeral of a whole number of seconds, a decimal
    point and any fraction.  The fraction has no influence: the time value
    and the cell are those of the numeral alone.  For every number of
    seconds in the range of dates, negative ones included, the time value
    is exactly the seconds times 1000, and that is the time formatted. *)
Theorem timestamp_whole_seconds
    (toLocaleTimeString : option Z -> string)
    (space : string) (seconds : Z) (fraction : string) (p : PacketInfo.t) :
  whiteSpaceOnly space = true ->
  let plain := PacketInfo.with_timestamp (decimal seconds) p in
  let precise :=
    PacketInfo.with_timestamp (space ++ decimal seconds ++ "." ++ fraction)
                              p in
  timeMillis precise = timeMillis plain /\
  renderTime toLocaleTimeString precise = renderTime toLocaleTimeString plain
  /\ ((Z.abs seconds <= Z.of_N maxSeconds)%Z ->
      timeMillis precise = JS.Finite (seconds * 1000) /\
      JS.newDate (timeMillis precise) = Some (seconds * 1000)%Z /\
      renderTime toLocaleTimeString precise
        = toLocaleTimeString (Some (seconds * 1000)%Z)).
Proof.
  intros Hspace plain precise.
  assert (Hprecise : timeMillis precise
                     = JS.times 1000 (JS.numberValue seconds)).
  { unfold timeMillis, precise.
    cbn [PacketInfo.timestamp PacketInfo.with_timestamp].
    change ("." ++ fraction) with (String 46 fraction).
    rewrite (@parseInt_decimal space seconds (String 46 fraction) Hspace
               (@EndUnit 46 fraction eq_refl)).
    reflexivity. }
  assert (Hplain : timeMillis plain
                   = JS.times 1000 (JS.numberValue seconds)).
  { unfold timeMillis, plain.
    cbn [PacketInfo.timestamp PacketInfo.with_timestamp].
    rewrite parseInt_decimal_alone. reflexivity. }
  split; [congruence|].
  split; [unfold renderTime; congruence|].
  intro Hrange. unfold renderTime. rewrite Hprecise.
  destruct (@newDate_times_within seconds) as [Hval Hdate].
  { unfold JS.maxTime, maxSeconds in *. lia. }
  rewrite Hdate. repeat split. exact Hval.
Qed.

Lemma timestamp_whole_seconds_witness :
  whiteSpaceOnly " " = true /\
  (Z.abs (-86400) <= Z.of_N maxSeconds)%Z /\
  timeMillis (PacketInfo.with_timestamp " -86400.75" tcpPacket)
    = JS.Finite (-86400000) /\
  timeMillis (PacketInfo.with_timestamp " -86400.75" tcpPacket)
    = timeMillis (PacketInfo.with_timestamp "-86400" tcpPacket).
Proof.
  split; [reflexivity|].
  assert (Hrange : (Z.abs (-86400) <= Z.of_N maxSeconds)%Z)
    by (apply Z.leb_le; reflexivity).
  split; [exact Hrange|].
  destruct (@timestamp_whole_seconds (fun _ => "") " " (-86400) "75"
              tcpPacket eq_refl) as (Hsame & _ & Hin).
  split; [exact (proj1 (Hin Hrange)) | exact Hsame].
Defined.

(** ** Concrete runs *)

Example parseInt_drops_fraction :
  JS.parseInt "1700000000.987" = JS.Finite 1700000000 /\
  timeMillis (samplePacket "1700000000.987" "TCP" "a" "b" None None)
    = JS.Finite 1700000000000.
Proof. split; vm_compute; reflexivity. Qed.

Example parseInt_no_digits : JS.parseInt "n/a" = JS.NaN.
Proof. reflexivity. Qed.

Example parseInt_hexadecimal : JS.parseInt "  -0x1F" = JS.Finite (-31).
Proof. vm_compute. reflexivity. Qed.

Example numbers_round_to_binary64 :
  JS.parseInt "9007199254740993" = JS.Finite 9007199254740992 /\
  JS.times 1000 (JS.parseInt "72057594037929")
    = JS.Finite 72057594037928992.
Proof. split; vm_compute; reflexivity. Qed.

Example toLowerCase_beyond_ascii :
  JS.toLowerCase "TCP/IPv6" = "tcp/ipv6" /\
  JS.toLowerCase "İ" = String 105 (String 775 "") /\
  JS.toLowerCase "ΑΣ" = "ας" /\
  JS.toLowerCase "ΑΣΑ" = "ασα" /\
  JS.toLowerCase "Σ" = "σ".
Proof. repeat split; vm_compute; reflexivity. Qed.

(** The capital I with a dot lower-cases to two code units, the first of
    them an i: the filter text i shows the record although no part of the
    label is an i in either case. *)
Example dotted_capital_i_passes_filter_i :
  applyFilters (Filters.Build "i" "" "")
    [samplePacket "1" "İ" "a" "b" None None]
  = [samplePacket "1" "İ" "a" "b" None None] /\
  ~ SubstringIgnoringCase "i" "İ".
Proof.
  split; [vm_compute; reflexivity|].
  intros (pre & mid & post & H & Heq).
  destruct mid as [|x [|y mid]]; cbn [EqIgnoringCase] in Heq.
  - contradiction.
  - destruct Heq as [Hx _].
    destruct pre as [|a pre]; cbn [append] in H.
    + injection H as Hx' _. subst x. discriminate Hx.
    + injection H as _ H. destruct pre; discriminate H.
  - destruct Heq as [_ []].
Qed.

Example protocol_filter_ignores_case :
  applyFilters (Filters.Build "tCp" "" "") [tcpPacket; oldPacket]
    = [tcpPacket].
Proof. vm_compute. reflexivity. Qed.

Example address_filter_is_exact :
  applyFilters (Filters.Build "" "192.168" "") [tcpPacket; oldPacket]
    = [tcpPacket] /\
  applyFilters (Filters.Build "" "" "10.0.0.1") [tcpPacket; oldPacket]
    = [tcpPacket; oldPacket] /\
  JS.includes "fe80::A1" "a1" = false.
Proof. repeat split. Qed.

Example three_pushes :
  packets (afterPackets [oldPacket; tcpPacket; oldPacket] initialState)
    = [oldPacket; tcpPacket; oldPacket] /\
  packets (afterPackets [oldPacket; tcpPacket] initialState)
    = [tcpPacket; oldPacket].
Proof. split; reflexivity. Qed.

Example port_cells :
  sourceCell tcpPacket = "192.168.1.10:51000" /\
  destinationCell oldPacket = "10.0.0.1" /\
  sourceCell (PacketInfo.with_source_port (Some 0%Z) tcpPacket)
    = "192.168.1.10".
Proof. repeat split. Qed.

Example failed_start_then_status :
  fst (run [StartCaptureSettled (Rejected "AlreadyCapturing");
            CaptureStatusReceived successStatus] capturingState)
    = setStatus (Some successStatus) capturingState /\
  snd (run [StartCaptureSettled (Rejected "NoDefaultInterface")]
           initialState)
    = [["Failed to start capture:"; "NoDefaultInterface"]].
Proof. split; reflexivity. Qed.

(** * Further properties of the component *)

(** ** Runs of events *)

Lemma run_cons_fst (ev : Event) (evs : list Event) (st : State) :
  fst (run (ev :: evs) st) = fst (run evs (fst (step ev st))).
Proof.
  change (run (ev :: evs) st)
    with (let '(st1, log1) := step ev st in
          let '(st2, log2) := run evs st1 in
          (st2, (log1 ++ log2)%list)).
  destruct (step ev st) as [st1 log1].
  destruct (run evs st1) as [st2 log2] eqn:E.
  cbn [fst]. rewrite E. reflexivity.
Qed.

Lemma run_cons_snd (ev : Event) (evs : list Event) (st : State) :
  snd (run (ev :: evs) st)
  = (snd (step ev st) ++ snd (run evs (fst (step ev st))))%list.
Proof.
  change (run (ev :: evs) st)
    with (let '(st1, log1) := step ev st in
          let '(st2, log2) := run evs st1 in
          (st2, (log1 ++ log2)%list)).
  destruct (step ev st) as [st1 log1].
  destruct (run evs st1) as [st2 log2] eqn:E.
  cbn [fst snd]. rewrite E. reflexivity.
Qed.

Lemma step_capacity (ev : Event) (st : State) :
  List.length (packets st) <= CAPACITY ->
  List.length (packets (fst (step ev st))) <= CAPACITY.
Proof.
  intro H.
  destruct ev as [[l|e]|p|s|[[]|e]|[[]|e]|v|v|v|v]; try exact H.
  - cbn [step silent fst]. rewrite packets_onPacketCaptured.
    apply firstn_le_length.
  - cbn [step silent fst]. unfold onCaptureStatus.
    destruct (negb (CaptureStatus.success s)); exact H.
  - apply Nat.le_0_l.
Qed.

Lemma run_capacity (evs : list Event) :
  forall st,
    List.length (packets st) <= CAPACITY ->
    List.length (packets (fst (run evs st))) <= CAPACITY.
Proof.
  induction evs as [|ev evs IH]; intros st H; [exact H|].
  rewrite run_cons_fst. apply IH, step_capacity, H.
Qed.

(** X1. The capacity bound is an invariant of the component: from a state
    holding at most 1000 packets, no sequence of events of any kind leads
    to a state holding more. *)
Theorem buffer_never_exceeds_capacity (evs : list Event) (st : State) :
  List.length (packets st) <= 1000 ->
  List.length (packets (fst (run evs st))) <= 1000.
Proof. apply run_capacity. Qed.

Lemma buffer_never_exceeds_capacity_witness :
  List.length (packets fullState) <= 1000 /\
  List.length
    (packets (fst (run [PacketCaptured oldPacket;
                        StopCaptureSettled (Resolved tt);
                        PacketCaptured tcpPacket] fullState))) <= 1000.
Proof.
  assert (H : List.length (packets fullState) <= 1000)
    by (apply Nat.eq_le_incl; reflexivity).
  split; [exact H|].
  exact (buffer_never_exceeds_capacity
           [PacketCaptured oldPacket; StopCaptureSettled (Resolved tt);
            PacketCaptured tcpPacket] fullState H).
Defined.

Lemma length_filter_le (A : Type) (test : A -> bool) (l : list A) :
  List.length (filter test l) <= List.length l.
Proof.
  induction l as [|x l IH]; simpl; [apply Nat.le_refl|].
  destruct (test x); simpl; lia.
Qed.

(** X2. Whatever happened since the component was mounted and whatever
    the filters are, the table shows at most 1000 rows, and never more rows
    than there are packets in the buffer. *)
Theorem table_has_at_most_capacity_rows
    (toLocaleTimeString : option Z -> string) (evs : list Event) :
  let st := fst (run evs initialState) in
  List.length (renderRows toLocaleTimeString st) <= List.length (packets st)
  /\ List.length (renderRows toLocaleTimeString st) <= 1000.
Proof.
  intro st.
  assert (Hrows : List.length (renderRows toLocaleTimeString st)
                  <= List.length (packets st)).
  { unfold renderRows, filteredPackets, applyFilters.
    rewrite length_map. apply length_filter_le. }
  split; [exact Hrows|].
  apply (Nat.le_trans _ _ _ Hrows).
  apply (run_capacity evs initialState). apply Nat.le_0_l.
Qed.

Lemma afterPackets_frame (payloads : list PacketInfo.t) :
  forall st,
    isCapturing (afterPackets payloads st) = isCapturing st /\
    status (afterPackets payloads st) = status st /\
    filters (afterPackets payloads st) = filters st /\
    interfaces (afterPackets payloads st) = interfaces st /\
    selectedInterface (afterPackets payloads st) = selectedInterface st.
Proof.
  induction payloads as [|p payloads IH]; intro st.
  - rewrite afterPackets_nil. repeat split.
  - rewrite afterPackets_cons.
    destruct (IH (onPacketCaptured p st)) as (H1 & H2 & H3 & H4 & H5).
    rewrite H1, H2, H3, H4, H5. repeat split.
Qed.

(** X3. A session starts clean: once [start_capture] has resolved, from
    any earlier state, the packets that then arrive are the only ones in the
    buffer (the newest 1000 of them, newest first) and the component is
    still capturing.  Nothing of an earlier session survives. *)
Theorem new_session_holds_only_its_packets
    (payloads : list PacketInfo.t) (st : State) :
  let st' := fst (run (StartCaptureSettled (Resolved tt)
                       :: map PacketCaptured payloads) st) in
  packets st' = firstn 1000 (List.rev payloads) /\
  isCapturing st' = true.
Proof.
  cbn zeta. rewrite run_cons_fst.
  change (fst (run (map PacketCaptured payloads)
                   (fst (step (StartCaptureSettled (Resolved tt)) st))))
    with (afterPackets payloads
            (setPackets (fun _ => []) (setIsCapturing true st))).
  split.
  - rewrite packets_afterPackets by apply Nat.le_0_l.
    cbn [packets setPackets]. rewrite app_nil_r. reflexivity.
  - destruct (afterPackets_frame payloads
                (setPackets (fun _ => []) (setIsCapturing true st)))
      as (H & _).
    rewrite H. reflexivity.
Qed.

(** ** Status events *)

(** X4. A [capture-status] event, success or failure, leaves the packet
    buffer, the filters, the interface list and the selection as they were;
    the capturing flag afterwards is the old flag and-ed with the payload's
    success flag, so a status event can turn capturing off but never on. *)
Theorem status_event_keeps_buffer
    (payload : CaptureStatus.t) (st : State) :
  packets (onCaptureStatus payload st) = packets st /\
  filters (onCaptureStatus payload st) = filters st /\
  interfaces (onCaptureStatus payload st) = interfaces st /\
  selectedInterface (onCaptureStatus payload st) = selectedInterface st /\
  isCapturing (onCaptureStatus payload st)
    = isCapturing st && CaptureStatus.success payload.
Proof.
  unfold onCaptureStatus.
  destruct (CaptureStatus.success payload); cbn; repeat split.
  - symmetry. apply andb_true_r.
  - symmetry. apply andb_false_r.
Qed.

Lemma step_keeps_idle (ev : Event) (st : State) :
  ev <> StartCaptureSettled (Resolved tt) ->
  isCapturing st = false ->
  isCapturing (fst (step ev st)) = false.
Proof.
  intros Hev Hidle.
  destruct ev as [[l|e]|p|s|[[]|e]|[[]|e]|v|v|v|v];
    try exact Hidle; try reflexivity.
  - cbn [step silent fst].
    destruct (status_event_keeps_buffer s st) as (_ & _ & _ & _ & H).
    rewrite H, Hidle. reflexivity.
  - contradiction Hev. reflexivity.
Qed.

Lemma Event_start_dec (ev : Event) :
  {ev = StartCaptureSettled (Resolved tt)}
  + {ev <> StartCaptureSettled (Resolved tt)}.
Proof.
  destruct ev as [r|p|s|[[]|e]|r|v|v|v|v];
    try (right; discriminate); left; reflexivity.
Qed.

(** X5. The capturing flag is only ever raised by a resolved
    [start_capture]: if the component is idle before a run of events and
    capturing after it, the run contains such a resolution.  No packet,
    status, stop, interface or filter event can switch it on. *)
Theorem capturing_only_after_resolved_start (evs : list Event) (st : State) :
  isCapturing st = false ->
  isCapturing (fst (run evs st)) = true ->
  In (StartCaptureSettled (Resolved tt)) evs.
Proof.
  revert st. induction evs as [|ev evs IH]; intros st Hidle Hcap.
  - cbn in Hcap. congruence.
  - destruct (Event_start_dec ev) as [->|Hne]; [left; reflexivity|].
    right. rewrite run_cons_fst in Hcap.
    exact (IH _ (step_keeps_idle st Hne Hidle) Hcap).
Qed.

Lemma capturing_only_after_resolved_start_witness :
  isCapturing initialState = false /\
  isCapturing (fst (run [PacketCaptured tcpPacket;
                         StartCaptureSettled (Resolved tt)] initialState))
    = true /\
  In (StartCaptureSettled (Resolved tt))
     [PacketCaptured tcpPacket; StartCaptureSettled (Resolved tt)].
Proof.
  split; [reflexivity|]. split; [reflexivity|].
  exact (capturing_only_after_resolved_start
           [PacketCaptured tcpPacket; StartCaptureSettled (Resolved tt)]
           initialState eq_refl eq_refl).
Defined.

Lemma status_step (ev : Event) (st : State) :
  status (fst (step ev st))
  = match ev with
    | CaptureStatusReceived s => Some s
    | _ => status st
    end.
Proof.
  destruct ev as [[l|e]|p|s|[[]|e]|[[]|e]|v|v|v|v]; try reflexivity.
  cbn [step silent fst]. unfold onCaptureStatus.
  destruct (negb (CaptureStatus.success s)); reflexivity.
Qed.

(** X6. The status shown is always the payload of the most recent
    [capture-status] event.  No other event changes it or clears it: in
    particular a resolved [start_capture] or [stop_capture] leaves an
    earlier failure message on display, and once a status has been received
    the banner never disappears. *)
Theorem status_is_last_status_event (evs : list Event) (st : State) :
  status (fst (run evs st)) = lastStatus evs (status st) /\
  (statusBanner st <> None -> statusBanner (fst (run evs st)) <> None).
Proof.
  assert (Hlast : forall l s, status (fst (run l s)) = lastStatus l (status s)).
  { induction l as [|ev l IH]; intro s; [reflexivity|].
    rewrite run_cons_fst, IH, status_step. reflexivity. }
  assert (Hsome : forall l o, o <> None -> lastStatus l o <> None).
  { induction l as [|ev l IH]; intros o Ho; [exact Ho|].
    cbn [lastStatus fold_left]. apply IH.
    destruct ev; try exact Ho. discriminate. }
  split; [apply Hlast|].
  unfold statusBanner. rewrite Hlast. intro Hban.
  assert (Hst : status st <> None)
    by (destruct (status st); [discriminate | contradiction]).
  specialize (Hsome evs _ Hst).
  destruct (lastStatus evs (status st)); [discriminate | contradiction].
Qed.

Lemma status_is_last_status_event_witness :
  statusBanner (setStatus (Some failureStatus) initialState) <> None /\
  status (fst (run [StartCaptureSettled (Resolved tt)]
                   (setStatus (Some failureStatus) initialState)))
    = Some failureStatus /\
  statusBanner (fst (run [StartCaptureSettled (Resolved tt)]
                         (setStatus (Some failureStatus) initialState)))
    <> None.
Proof.
  assert (H : statusBanner (setStatus (Some failureStatus) initialState)
              <> None) by discriminate.
  split; [exact H|].
  destruct (status_is_last_status_event
              [StartCaptureSettled (Resolved tt)]
              (setStatus (Some failureStatus) initialState)) as [H1 H2].
  split; [exact H1 | exact (H2 H)].
Defined.

(** ** The console *)

Lemma step_log (ev : Event) (st : State) :
  List.length (snd (step ev st)) = if isRejection ev then 1 else 0.
Proof.
  destruct ev as [[l|e]|p|s|[[]|e]|[[]|e]|v|v|v|v]; reflexivity.
Qed.

Lemma step_log_state (ev : Event) (st st' : State) :
  snd (step ev st) = snd (step ev st').
Proof.
  destruct ev as [[l|e]|p|s|[[]|e]|[[]|e]|v|v|v|v]; reflexivity.
Qed.

(** X7. The component writes to the console exactly one line per rejected
    [invoke] (list, start or stop) and nothing for any other event; what is
    written depends on the events alone, not on the state they meet. *)
Theorem console_logs_rejections_only (evs : list Event) (st st' : State) :
  List.length (snd (run evs st)) = List.length (filter isRejection evs) /\
  snd (run evs st) = snd (run evs st').
Proof.
  split.
  - revert st. induction evs as [|ev evs IH]; intro st; [reflexivity|].
    rewrite run_cons_snd, length_app, IH, step_log.
    cbn [filter]. destruct (isRejection ev); reflexivity.
  - revert st st'. induction evs as [|ev evs IH]; intros st st';
      [reflexivity|].
    rewrite !run_cons_snd.
    rewrite (step_log_state ev st st').
    rewrite (IH (fst (step ev st)) (fst (step ev st'))). reflexivity.
Qed.

(** ** More on the filter *)

Lemma filter_filter_and (A : Type) (f g : A -> bool) (l : list A) :
  filter f (filter g l) = filter (fun x => g x && f x) l.
Proof.
  induction l as [|x l IH]; [reflexivity|].
  cbn [filter]. destruct (g x); cbn [filter andb]; rewrite IH; reflexivity.
Qed.

Lemma filter_ext_bool (A : Type) (f g : A -> bool) (l : list A) :
  (forall x, f x = g x) -> filter f l = filter g l.
Proof.
  intro H. induction l as [|x l IH]; [reflexivity|].
  cbn [filter]. rewrite H, IH. reflexivity.
Qed.

(** X8. The three filter inputs act independently: filtering with all
    three texts at once gives the same list as filtering by destination
    alone, then by source alone, then by protocol alone. *)
Theorem filters_compose (pr src dst : string) (records : list PacketInfo.t) :
  applyFilters (Filters.Build pr src dst) records
  = applyFilters (Filters.Build pr "" "")
      (applyFilters (Filters.Build "" src "")
         (applyFilters (Filters.Build "" "" dst) records)).
Proof.
  unfold applyFilters. rewrite !filter_filter_and.
  apply filter_ext_bool. intro p. unfold matchesFilters.
  cbn [Filters.protocol Filters.source Filters.destination
       JS.truthyString negb orb].
  rewrite !andb_true_r.
  destruct (negb (JS.truthyString pr) || _),
           (negb (JS.truthyString src) || _),
           (negb (JS.truthyString dst) || _); reflexivity.
Qed.

Lemma Substring_trans (a b c : string) :
  Substring a b -> Substring b c -> Substring a c.
Proof.
  intros (p1 & q1 & ->) (p2 & q2 & ->).
  exists (p2 ++ p1), (q1 ++ q2).
  rewrite !append_assoc. reflexivity.
Qed.

Lemma Substring_of_empty (a : string) : Substring a "" -> a = "".
Proof.
  intros (p & q & H). destruct p; [|discriminate H].
  destruct a; [reflexivity | discriminate H].
Qed.

Lemma Substring_ascii (a b : string) :
  Substring a b -> asciiOnly b = true -> asciiOnly a = true.
Proof.
  intros (p & q & ->) H. rewrite !asciiOnly_app in H.
  apply andb_true_iff in H as [_ H]. apply andb_true_iff in H as [H _].
  exact H.
Qed.

(** Among ASCII texts lower-casing keeps containment. *)
Lemma Substring_toLowerCase_ascii (a b : string) :
  asciiOnly b = true -> Substring a b ->
  Substring (JS.toLowerCase a) (JS.toLowerCase b).
Proof.
  intros Hb Hsub.
  rewrite (toLowerCase_ascii a (Substring_ascii Hsub Hb)),
          (toLowerCase_ascii b Hb).
  destruct Hsub as (p & q & ->).
  exists (mapUnits asciiLower p), (mapUnits asciiLower q).
  rewrite !mapUnits_app. reflexivity.
Qed.

(** One clause of the filter callback gets harder to pass when its text
    grows. *)
Lemma clause_narrows (wide narrow hay : string) :
  Substring wide narrow ->
  negb (JS.truthyString narrow) || JS.includes hay narrow = true ->
  negb (JS.truthyString wide) || JS.includes hay wide = true.
Proof.
  intros Hsub H. apply orb_true_iff in H. apply orb_true_iff.
  destruct H as [H|H].
  - left. apply negb_true_iff, truthyString_false in H. subst narrow.
    rewrite (Substring_of_empty Hsub). reflexivity.
  - right. apply includes_spec. apply includes_spec in H.
    exact (Substring_trans Hsub H).
Qed.

(** The protocol clause, which lower-cases both texts, does so too when
    the filter text is ASCII. *)
Lemma protocol_clause_narrows (wide narrow protocol : string) :
  asciiOnly narrow = true ->
  Substring wide narrow ->
  negb (JS.truthyString narrow)
  || JS.includes (JS.toLowerCase protocol) (JS.toLowerCase narrow) = true ->
  negb (JS.truthyString wide)
  || JS.includes (JS.toLowerCase protocol) (JS.toLowerCase wide) = true.
Proof.
  intros Hascii Hsub H. apply orb_true_iff in H. apply orb_true_iff.
  destruct H as [H|H].
  - left. apply negb_true_iff, truthyString_false in H. subst narrow.
    rewrite (Substring_of_empty Hsub). reflexivity.
  - right. apply includes_spec. apply includes_spec in H.
    exact (Substring_trans (Substring_toLowerCase_ascii Hascii Hsub) H).
Qed.

Lemma matchesFilters_narrows (narrow wide : Filters.t) (p : PacketInfo.t) :
  asciiOnly (Filters.protocol narrow) = true ->
  Narrows narrow wide ->
  matchesFilters narrow p = true -> matchesFilters wide p = true.
Proof.
  intros Hascii (Hp & Hs & Hd). unfold matchesFilters.
  rewrite !andb_true_iff. intros [[H1 H2] H3]. repeat split.
  - eapply protocol_clause_narrows; [exact Hascii | exact Hp | exact H1].
  - eapply clause_narrows; [exact Hs | exact H2].
  - eapply clause_narrows; [exact Hd | exact H3].
Qed.

(** X9. Typing more into the filters can only narrow the view, as long as
    the protocol text is ASCII: when each text of one filter occurs inside
    the corresponding text of another, every record shown under the longer
    texts is shown under the shorter ones, and the narrower view can be
    computed from the wider one.  (Beyond ASCII this fails for the protocol
    text: a sigma lower-cases differently at the end of a word.) *)
Theorem longer_filter_narrows
    (narrow wide : Filters.t) (records : list PacketInfo.t) :
  asciiOnly (Filters.protocol narrow) = true ->
  Narrows narrow wide ->
  applyFilters narrow records
    = applyFilters narrow (applyFilters wide records) /\
  (forall p, In p (applyFilters narrow records) ->
             In p (applyFilters wide records)) /\
  List.length (applyFilters narrow records)
    <= List.length (applyFilters wide records).
Proof.
  intros Hascii Hn.
  assert (Heq : applyFilters narrow records
                = applyFilters narrow (applyFilters wide records)).
  { unfold applyFilters. rewrite filter_filter_and.
    apply filter_ext_bool. intro p.
    destruct (matchesFilters narrow p) eqn:E.
    - rewrite (@matchesFilters_narrows narrow wide p Hascii Hn E).
      reflexivity.
    - rewrite andb_false_r. reflexivity. }
  split; [exact Heq|]. split.
  - intros p Hin. rewrite Heq in Hin. unfold applyFilters in Hin.
    apply filter_In in Hin. exact (proj1 Hin).
  - rewrite Heq. apply length_filter_le.
Qed.

Lemma longer_filter_narrows_witness :
  asciiOnly "tcp" = true /\
  Narrows (Filters.Build "tcp" "192.168" "") (Filters.Build "tc" "168" "") /\
  applyFilters (Filters.Build "tcp" "192.168" "") [tcpPacket; oldPacket]
    = applyFilters (Filters.Build "tcp" "192.168" "")
        (applyFilters (Filters.Build "tc" "168" "") [tcpPacket; oldPacket]).
Proof.
  assert (H : Narrows (Filters.Build "tcp" "192.168" "")
                      (Filters.Build "tc" "168" "")).
  { split; [|split].
    - exists "", "p". reflexivity.
    - exists "192.", "". reflexivity.
    - exists "", "". reflexivity. }
  split; [reflexivity|]. split; [exact H|].
  exact (proj1 (@longer_filter_narrows (Filters.Build "tcp" "192.168" "")
                  (Filters.Build "tc" "168" "") [tcpPacket; oldPacket]
                  eq_refl H)).
Defined.

(** The sigma of a protocol label shows why the protocol text must be
    ASCII above: the label is shown for the filter text alpha-sigma-alpha
    and hidden for the shorter alpha-sigma. *)
Example sigma_filter_does_not_narrow :
  applyFilters (Filters.Build "ΑΣΑ" "" "")
    [samplePacket "1" "ΑΣΑ" "a" "b" None None]
  = [samplePacket "1" "ΑΣΑ" "a" "b" None None] /\
  applyFilters (Filters.Build "ΑΣ" "" "")
    [samplePacket "1" "ΑΣΑ" "a" "b" None None]
  = [].
Proof. split; vm_compute; reflexivity. Qed.

(** X10. While the buffer has room, a packet event updates the view
    incrementally: a packet that passes the filters appears as the first
    row above the rows already shown, and a packet that does not pass
    leaves the view exactly as it was. *)
Theorem view_after_packet_with_room (p : PacketInfo.t) (st : State) :
  List.length (packets st) < 1000 ->
  filteredPackets (onPacketCaptured p st)
  = if matchesFilters (filters st) p
    then p :: filteredPackets st
    else filteredPackets st.
Proof.
  intro Hroom. unfold filteredPackets.
  rewrite packets_onPacketCaptured.
  rewrite (@firstn_push_room _ CAPACITY p (packets st) Hroom).
  reflexivity.
Qed.

Lemma view_after_packet_with_room_witness :
  List.length (packets filteringState) < 1000 /\
  filteredPackets (onPacketCaptured tcpPacket filteringState) = [tcpPacket] /\
  filteredPackets (onPacketCaptured oldPacket filteringState) = [].
Proof.
  assert (H : List.length (packets filteringState) < 1000)
    by (apply Nat.ltb_lt; reflexivity).
  split; [exact H|]. split.
  - exact (view_after_packet_with_room tcpPacket filteringState H).
  - exact (view_after_packet_with_room oldPacket filteringState H).
Defined.

(** ** The controls *)

(** X11. Choosing an interface decides what the button sends next: while
    idle, the start command carries the chosen name, or no name at all when
    the placeholder (empty value) is chosen; while capturing, the button
    sends stop whatever is chosen.  An empty interface name is never
    sent. *)
Theorem selection_decides_start_argument (v : string) (st : State) :
  onButtonClick (fst (step (InterfaceSelected v) st))
  = (if isCapturing st then InvokeStopCapture
     else InvokeStartCapture (if (v =? "")%string then None else Some v)) /\
  onButtonClick st <> InvokeStartCapture (Some "").
Proof.
  split.
  - unfold onButtonClick, startCaptureArg. cbn.
    destruct (isCapturing st); [reflexivity|].
    destruct v; reflexivity.
  - unfold onButtonClick, startCaptureArg.
    destruct (isCapturing st); [discriminate|].
    destruct (selectedInterface st); discriminate.
Qed.

(** X12. The button follows the lifecycle: after a resolved start it sends
    stop, reads "Stop Capture" and the interface select is disabled; after
    a resolved stop, and likewise after a failure status, it sends start
    for the current selection, reads "Start Capture" and the select is
    enabled again. *)
Theorem button_follows_lifecycle
    (st : State) (msg : string) (iface : option string) :
  let started := fst (startCapture (Resolved tt) st) in
  let stopped := fst (stopCapture (Resolved tt) st) in
  let failed := onCaptureStatus (CaptureStatus.Build false msg iface) st in
  (onButtonClick started = InvokeStopCapture /\
   buttonLabel started = "Stop Capture" /\ selectDisabled started = true) /\
  (onButtonClick stopped = InvokeStartCapture (startCaptureArg st) /\
   buttonLabel stopped = "Start Capture" /\ selectDisabled stopped = false) /\
  (onButtonClick failed = InvokeStartCapture (startCaptureArg st) /\
   buttonLabel failed = "Start Capture" /\ selectDisabled failed = false).
Proof. cbn. repeat split. Qed.

(** X13. Two cells are never blank.  The flags cell shows the flags when
    there are some and "-" otherwise, an empty flags string counting as
    none; the description part of an interface label shows "No description"
    both when the description is absent and when it is empty. *)
Theorem placeholders_fill_blanks
    (p : PacketInfo.t) (iface : InterfaceInfo.t) (c : codeUnit) (s : string) :
  flagsCell p <> "" /\
  flagsCell (withFlags (Some "") p) = flagsCell (withFlags None p) /\
  flagsCell (withFlags (Some (String c s)) p) = String c s /\
  interfaceDescription iface <> "" /\
  interfaceLabel (InterfaceInfo.Build (InterfaceInfo.name iface) (Some "")
                    (InterfaceInfo.mac iface) (InterfaceInfo.ipv4 iface))
    = InterfaceInfo.name iface ++ " - No description".
Proof.
  repeat split.
  - unfold flagsCell. destruct (PacketInfo.flags p) as [[|a t]|]; discriminate.
  - unfold interfaceDescription.
    destruct (InterfaceInfo.description iface) as [[|a t]|]; discriminate.
Qed.

(** X17. Editing the controls is harmless for the capture: a run made
    only of interface selections and filter edits leaves the packet buffer,
    the capturing flag, the status and the interface list untouched and
    writes nothing to the console. *)
Theorem edits_leave_capture_alone (evs : list Event) (st : State) :
  forallb isEdit evs = true ->
  packets (fst (run evs st)) = packets st /\
  isCapturing (fst (run evs st)) = isCapturing st /\
  status (fst (run evs st)) = status st /\
  interfaces (fst (run evs st)) = interfaces st /\
  snd (run evs st) = [].
Proof.
  revert st. induction evs as [|ev evs IH]; intros st Hall.
  - repeat split.
  - cbn [forallb] in Hall. apply andb_true_iff in Hall as [Hev Hall].
    rewrite run_cons_fst, run_cons_snd.
    destruct (IH (fst (step ev st)) Hall) as (H1 & H2 & H3 & H4 & H5).
    rewrite H1, H2, H3, H4, H5.
    destruct ev; try discriminate Hev; repeat split.
Qed.

Lemma edits_leave_capture_alone_witness :
  forallb isEdit [ProtocolFilterChanged "udp"; InterfaceSelected "wlan0";
                  SourceFilterChanged "10."] = true /\
  packets (fst (run [ProtocolFilterChanged "udp"; InterfaceSelected "wlan0";
                     SourceFilterChanged "10."] capturingState))
    = packets capturingState /\
  isCapturing (fst (run [ProtocolFilterChanged "udp";
                         InterfaceSelected "wlan0";
                         SourceFilterChanged "10."] capturingState))
    = isCapturing capturingState.
Proof.
  split; [reflexivity|].
  destruct (edits_leave_capture_alone
              [ProtocolFilterChanged "udp"; InterfaceSelected "wlan0";
               SourceFilterChanged "10."] capturingState eq_refl)
    as (H1 & H2 & _).
  split; [exact H1 | exact H2].
Defined.

(** X18. The packet listener does not look at the capturing flag: in any
    state, capturing or not, the payload becomes the first record of the
    buffer, and the flag, the status, the filters, the interface list and
    the selection keep their values. *)
Theorem packet_recorded_in_any_state (p : PacketInfo.t) (st : State) :
  hd_error (packets (onPacketCaptured p st)) = Some p /\
  isCapturing (onPacketCaptured p st) = isCapturing st /\
  status (onPacketCaptured p st) = status st /\
  filters (onPacketCaptured p st) = filters st /\
  interfaces (onPacketCaptured p st) = interfaces st /\
  selectedInterface (onPacketCaptured p st) = selectedInterface st.
Proof.
  split; [|repeat split].
  rewrite packets_onPacketCaptured.
  change CAPACITY with (S 999). rewrite firstn_cons. reflexivity.
Qed.

(** ** More on the time cell *)

Lemma numberToString_decimal (n : Z) : JS.numberToString n = decimal n.
Proof. destruct n; reflexivity. Qed.

Lemma timeMillis_whole (n : N) (p : PacketInfo.t) :
  timeMillis (PacketInfo.with_timestamp (JS.numberToString (Z.of_N n)) p)
  = JS.times 1000 (JS.numberValue (Z.of_N n)).
Proof.
  unfold timeMillis. cbn [PacketInfo.timestamp PacketInfo.with_timestamp].
  rewrite numberToString_decimal, parseInt_decimal_alone. reflexivity.
Qed.

(** X14. The time cell shows a real time only for timestamps up to
    8,640,000,000,000 seconds: for a larger whole number of seconds (a
    timestamp given in milliseconds or finer, say) the date is invalid and
    the cell is what the formatter prints for an invalid date. *)
Theorem time_cell_range
    (toLocaleTimeString : option Z -> string) (n : N) (p : PacketInfo.t) :
  let stamped :=
    PacketInfo.with_timestamp (JS.numberToString (Z.of_N n)) p in
  JS.newDate (timeMillis stamped)
    = (if (n <=? maxSeconds)%N then Some (Z.of_N n * 1000)%Z else None) /\
  renderTime toLocaleTimeString stamped
    = toLocaleTimeString
        (if (n <=? maxSeconds)%N then Some (Z.of_N n * 1000)%Z else None).
Proof.
  cbn zeta.
  assert (H : JS.newDate (JS.times 1000 (JS.numberValue (Z.of_N n)))
              = if (n <=? maxSeconds)%N
                then Some (Z.of_N n * 1000)%Z else None).
  { unfold maxSeconds.
    destruct (N.leb_spec n 8640000000000).
    - apply newDate_times_within. unfold JS.maxTime. lia.
    - apply newDate_times_beyond. unfold JS.maxTime. lia. }
  unfold renderTime. rewrite timeMillis_whole, H. split; reflexivity.
Qed.

(** X15. Only the leading digits of the timestamp count.  Whatever text
    follows them, as long as it starts with a character that is not a
    decimal digit (nor the x of a hexadecimal prefix), is ignored: the
    time value is the one of the digits alone, and within the range of
    dates it is exactly the number they denote times 1000.  A timestamp
    written as a date, such as 2024-05-01T10:00:00Z, is taken to mean
    2024 seconds after the epoch. *)
Theorem text_after_digits_is_ignored
    (n : N) (c : codeUnit) (rest : string) (p : PacketInfo.t) :
  endsNumber c = true ->
  let dated :=
    PacketInfo.with_timestamp (decimal (Z.of_N n) ++ String c rest) p in
  timeMillis dated
    = timeMillis (PacketInfo.with_timestamp (decimal (Z.of_N n)) p) /\
  ((n <= maxSeconds)%N ->
   timeMillis dated = JS.Finite (Z.of_N n * 1000) /\
   JS.newDate (timeMillis dated) = Some (Z.of_N n * 1000)%Z).
Proof.
  intros Hc dated.
  assert (Hdated : timeMillis dated
                   = JS.times 1000 (JS.numberValue (Z.of_N n))).
  { unfold timeMillis, dated.
    cbn [PacketInfo.timestamp PacketInfo.with_timestamp].
    rewrite <- (@parseInt_decimal "" (Z.of_N n) (String c rest) eq_refl
                  (@EndUnit c rest Hc)).
    reflexivity. }
  split.
  - rewrite Hdated. unfold timeMillis.
    cbn [PacketInfo.timestamp PacketInfo.with_timestamp].
    rewrite parseInt_decimal_alone. reflexivity.
  - intro Hrange. rewrite Hdated. apply newDate_times_within.
    unfold JS.maxTime, maxSeconds in *. lia.
Qed.

Lemma text_after_digits_is_ignored_witness :
  endsNumber 45 = true /\
  (2024 <= maxSeconds)%N /\
  JS.newDate
    (timeMillis (PacketInfo.with_timestamp "2024-05-01T10:00:00Z" tcpPacket))
  = Some 2024000%Z.
Proof.
  split; [reflexivity|].
  assert (Hrange : (2024 <= maxSeconds)%N) by (apply N.leb_le; reflexivity).
  split; [exact Hrange|].
  destruct (@text_after_digits_is_ignored 2024 45 "05-01T10:00:00Z"
              tcpPacket eq_refl) as (_ & Hin).
  exact (proj2 (Hin Hrange)).
Defined.

Lemma parseInt_not_a_number (c : codeUnit) (rest : string) :
  opensNumber c = false -> JS.parseInt (String c rest) = JS.NaN.
Proof.
  unfold opensNumber. intro H.
  apply orb_false_iff in H as [H Hdigit].
  apply orb_false_iff in H as [H Hplus].
  apply orb_false_iff in H as [Hspace Hminus].
  assert (Hzero : (c =? 48)%N = false).
  { destruct (N.eqb_spec c 48) as [->|_]; [discriminate Hdigit|reflexivity]. }
  unfold JS.parseInt. cbn [JS.trimStart]. rewrite Hspace.
  cbn [JS.readSign]. rewrite Hminus, Hplus.
  cbn [JS.readRadix]. rewrite Hzero.
  cbn [JS.radixDigits].
  destruct (JS.digitValue c) as [d|]; [|reflexivity].
  rewrite Hdigit. reflexivity.
Qed.

(** X16. A timestamp that does not start like a number gives an invalid
    date: when it is empty, or when its first character is neither white
    space, nor a sign, nor a decimal digit, the time cell is what the
    formatter prints for an invalid date, whatever the rest of the string
    is. *)
Theorem non_numeric_timestamp_is_invalid
    (toLocaleTimeString : option Z -> string)
    (c : codeUnit) (rest : string) (p : PacketInfo.t) :
  opensNumber c = false ->
  renderTime toLocaleTimeString (PacketInfo.with_timestamp (String c rest) p)
    = toLocaleTimeString None /\
  renderTime toLocaleTimeString (PacketInfo.with_timestamp "" p)
    = toLocaleTimeString None.
Proof.
  intro Hc. unfold renderTime, timeMillis.
  cbn [PacketInfo.timestamp PacketInfo.with_timestamp].
  rewrite (@parseInt_not_a_number c rest Hc). split; reflexivity.
Qed.

Lemma non_numeric_timestamp_is_invalid_witness :
  opensNumber 110 = false /\
  renderTime (fun t => match t with
                       | Some _ => "time"
                       | None => "Invalid Date"
                       end)
             (PacketInfo.with_timestamp "n/a" tcpPacket)
    = "Invalid Date".
Proof.
  split; [reflexivity|].
  exact (proj1 (@non_numeric_timestamp_is_invalid
                  (fun t => match t with
                            | Some _ => "time"
                            | None => "Invalid Date"
                            end)
                  110 "/a" tcpPacket eq_refl)).
Defined.

(** ** From the interface list to the start command *)

(** X19. The select offers the placeholder, whose value is empty,
    followed by one option per interface of the loaded list, in the order
    of the list, each with the interface name as value and the interface
    label as text; this holds in every state, with an empty list and while
    capturing too.  Every listed interface with a non-empty name can be
    started by name: choosing its option while idle makes the button send
    [start_capture] with that name. *)
Theorem listed_interface_can_be_started (st : State) :
  map optionValue (selectOptions st)
    = "" :: map InterfaceInfo.name (interfaces st) /\
  map optionLabel (selectOptions st)
    = "Select Interface" :: map interfaceLabel (interfaces st) /\
  List.length (selectOptions st) = S (List.length (interfaces st)) /\
  (forall iface,
     In iface (interfaces st) ->
     isCapturing st = false ->
     InterfaceInfo.name iface <> "" ->
     exists o,
       In o (selectOptions st) /\
       optionValue o = InterfaceInfo.name iface /\
       optionLabel o = interfaceLabel iface /\
       onButtonClick (fst (step (InterfaceSelected (optionValue o)) st))
         = InvokeStartCapture (Some (InterfaceInfo.name iface))).
Proof.
  unfold selectOptions. cbn [map optionValue optionLabel List.length].
  rewrite !map_map, length_map. cbn [optionValue optionLabel].
  split; [reflexivity|]. split; [reflexivity|]. split; [reflexivity|].
  intros iface Hin Hidle Hname.
  exists (mkOption (InterfaceInfo.name iface) (interfaceLabel iface)).
  split; [|split; [reflexivity|split; [reflexivity|]]].
  - right. apply in_map_iff. exists iface. split; [reflexivity | exact Hin].
  - unfold onButtonClick, startCaptureArg. cbn. rewrite Hidle.
    destruct (InterfaceInfo.name iface); [contradiction | reflexivity].
Qed.

Lemma listed_interface_can_be_started_witness :
  In eth0 (interfaces listingState) /\
  isCapturing listingState = false /\
  InterfaceInfo.name eth0 <> "" /\
  map optionValue (selectOptions listingState) = [""; "eth0"] /\
  exists o,
    In o (selectOptions listingState) /\
    optionValue o = "eth0" /\
    optionLabel o = "eth0 - Ethernet" /\
    onButtonClick (fst (step (InterfaceSelected (optionValue o))
                             listingState))
      = InvokeStartCapture (Some "eth0").
Proof.
  assert (Hin : In eth0 (interfaces listingState)) by (left; reflexivity).
  assert (Hname : InterfaceInfo.name eth0 <> "") by discriminate.
  destruct (listed_interface_can_be_started listingState)
    as (Hvalues & _ & _ & Hstart).
  split; [exact Hin|]. split; [reflexivity|]. split; [exact Hname|].
  split; [exact Hvalues|].
  exact (Hstart eth0 Hin eq_refl Hname).
Defined.
